(** * minigame-canvas-engine: layout scheduling, hit-testing and render contexts

    A shallow embedding of
      - the [_Layout] class (scheduler tick, [reflow], [repaint],
        [updateViewPort], [getChildByPos], [eventHandler]),
      - the [src] accessor of the [Image] component,
      - the [RenderContextManager] (surface pool, [release],
        [getChildrenGlRects], [draw]).

    JavaScript numbers are idealised as exact rationals [Q]; a value that
    would be [undefined] is [None]; a quotient may also be [NaN] or an
    infinity ([Js.num]).  Calls into collaborators that only touch the
    canvas are recorded in a trace. *)

From Stdlib Require Import QArith Qabs ZArith Bool List Lia String.
From stdpp Require Import base option list gmap strings.
Import ListNotations.

Local Set Warnings "-register-all".
Local Open Scope string_scope.
Local Open Scope list_scope.
Local Open Scope Q_scope.

(** ** JavaScript values *)

Module Js.

(** [!v] is false for a number exactly when it is present and non-zero. *)
Definition truthy (v : option Q) : bool :=
  match v with
  | Some q => negb (Qeq_bool q 0)
  | None => false
  end.

(** [v || 0] *)
Definition or_zero (v : option Q) : Q :=
  match v with
  | Some q => if Qeq_bool q 0 then 0 else q
  | None => 0
  end.

(** A number that need not be finite. *)
Inductive num : Type :=
| Fin (q : Q)
| PInf
| NInf
| NaN.

(** [a / b] for operands that are finite numbers or [undefined]: an
    [undefined] operand gives [NaN], and so does [0 / 0]; another division
    by zero gives the infinity with the sign of [a]. *)
Definition quot (a b : option Q) : num :=
  match a, b with
  | Some x, Some y =>
    if Qeq_bool y 0 then
      if Qeq_bool x 0 then NaN
      else if Qle_bool 0 x then PInf else NInf
    else Fin (x / y)
  | _, _ => NaN
  end.

Inductive Err : Type := TypeError.

Inductive Res (A : Type) : Type :=
| Done (a : A)
| Fail (e : Err).
Arguments Done {A} a.
Arguments Fail {A} e.

(** [indexOf] of an array of object references; [-1] when absent. *)
Fixpoint indexOf_from (i : Z) (l : list nat) (x : nat) : Z :=
  match l with
  | [] => (-1)%Z
  | y :: l' => if Nat.eqb y x then i else indexOf_from (i + 1)%Z l' x
  end.

Definition indexOf (l : list nat) (x : nat) : Z := indexOf_from 0%Z l x.

Fixpoint remove_at {A : Type} (n : nat) (l : list A) : list A :=
  match l, n with
  | [], _ => []
  | _ :: l', O => l'
  | y :: l', S n' => y :: remove_at n' l'
  end.

(** [l.splice(index, 1)]: a negative start counts from the end of the
    array (clamped at 0). *)
Definition splice1 {A : Type} (index : Z) (l : list A) : list A :=
  let len := Z.of_nat (List.length l) in
  let start := if (index <? 0)%Z then Z.max (len + index) 0 else Z.min index len in
  remove_at (Z.to_nat start) l.

End Js.

(** ** Element tree *)

Module Tree.

(** Solver output: a box relative to the parent. *)
Record Box : Type := mkBox {
  b_left : Q; b_top : Q; b_width : Q; b_height : Q }.

Record LayoutBox : Type := mkLayoutBox {
  absoluteX : Q; absoluteY : Q }.

Record RealLayoutBox : Type := mkReal {
  realX : Q; realY : Q; r_width : Q; r_height : Q }.

Inductive Element : Type := mkElement {
  id : nat;
  style_width : option Q;
  style_height : option Q;
  layout : Box;
  layoutBox : LayoutBox;
  realLayoutBox : RealLayoutBox;
  children : list Element }.

(** Pre-order listing of a forest. *)
Fixpoint preorder (e : Element) : list Element :=
  e :: flat_map preorder (children e).

Definition preorder_forest (es : list Element) : list Element :=
  flat_map preorder es.

End Tree.
Import Tree.

(** ** The [_Layout] container *)

Module Layout.

Record Viewport : Type := mkViewport {
  vp_width : option Q; vp_height : option Q;
  vp_x : option Q; vp_y : option Q }.

Record Renderport : Type := mkRenderport {
  rp_width : option Q; rp_height : option Q }.

Record Touch : Type := mkTouch {
  pageX : option Q; pageY : option Q; timeStamp : option Q }.

(** An incoming host event: a touch event carries [touches] and
    [changedTouches]; a mouse event carries its own coordinates. *)
Record TouchEvent : Type := mkEvent {
  touches : option (list Touch);
  changedTouches : option (list Touch);
  own : Touch }.

Record State : Type := mkState {
  children : list Element;
  viewport : Viewport;
  renderport : Renderport;
  realLayoutBox : Q * Q;
  hasViewPortSet : bool;
  isDirty : bool;
  isNeedRepaint : bool;
  touchMsg : gmap string Touch }.

Definition set_children (cs : list Element) (s : State) : State :=
  mkState cs (viewport s) (renderport s) (realLayoutBox s) (hasViewPortSet s)
          (isDirty s) (isNeedRepaint s) (touchMsg s).

Definition set_renderport (r : Renderport) (s : State) : State :=
  mkState (children s) (viewport s) r (realLayoutBox s) (hasViewPortSet s)
          (isDirty s) (isNeedRepaint s) (touchMsg s).

Definition set_isDirty (b : bool) (s : State) : State :=
  mkState (children s) (viewport s) (renderport s) (realLayoutBox s)
          (hasViewPortSet s) b (isNeedRepaint s) (touchMsg s).

Definition set_isNeedRepaint (b : bool) (s : State) : State :=
  mkState (children s) (viewport s) (renderport s) (realLayoutBox s)
          (hasViewPortSet s) (isDirty s) b (touchMsg s).

Definition set_touchMsg (m : gmap string Touch) (s : State) : State :=
  mkState (children s) (viewport s) (renderport s) (realLayoutBox s)
          (hasViewPortSet s) (isDirty s) (isNeedRepaint s) m.

(** The constructor's state: empty ports, origin [(0, 0)], clean flags. *)
Definition init : State :=
  mkState [] (mkViewport None None None None) (mkRenderport None None)
          (0, 0) false false false ∅.

(** Calls that leave the container: the animation step, the flexbox
    solver, diagnostics and the canvas passes. *)
Inductive Op : Type :=
| TweenUpdate
| ComputeLayout
| ConsoleError (msg : string)
| LayoutChildren
| UpdateRealLayout
| ClearCanvas
| RenderChildren
| RepaintChildren.

(** External collaborators: the animation library may change anything in
    the container (flags included); the solver rewrites the root element.
    [layoutChildren] and [updateRealLayout] are the two coordinate passes of
    ./common/vd, which is not among the sources: passes over the tree, the
    second one given the container's real origin and the scale; which
    boxes they compute is left open. *)
Class Collaborators : Type := {
  TWEEN_update : State -> State;
  computeLayout : Element -> Element;
  layoutChildren : list Element -> list Element;
  updateRealLayout : Q * Q -> Js.num -> list Element -> list Element }.

(** The configured click window. *)
Class ClickConfig : Type := {
  click_distance : Q;
  click_time : Q }.

(** The handler of the ['repaint'] event registered by the constructor. *)
Definition on_repaint (s : State) : State := set_isNeedRepaint true s.

Definition updateViewPort (box : Viewport) (s : State) : State :=
  let vp := mkViewport (Some (Js.or_zero (vp_width box)))
                       (Some (Js.or_zero (vp_height box)))
                       (Some (Js.or_zero (vp_x box)))
                       (Some (Js.or_zero (vp_y box))) in
  mkState (children s) vp (renderport s)
          (Js.or_zero (vp_x box), Js.or_zero (vp_y box))
          true (isDirty s) (isNeedRepaint s) (touchMsg s).

Definition root_error : string :=
  "Please set width and height property for root element".

(** The branch of [reflow] on the root element's style: the render port
    is taken from it when both width and height are declared; otherwise the
    error is reported and the render port stays as it was. *)
Definition take_renderport (rootEle : Element) (s : State) : State * list Op :=
  match style_width rootEle, style_height rootEle with
  | Some w, Some h => (set_renderport (mkRenderport (Some w) (Some h)) s, [])
  | _, _ => (s, [ConsoleError root_error])
  end.

Section WithCollaborators.
Context `{Collaborators}.

(** [reflow()]: the trace is what ran, the result is the state reached;
    it throws when there is no root element. *)
Definition reflow (s : State) : list Op * Js.Res State :=
  match children s with
  | [] => ([ComputeLayout], Js.Fail Js.TypeError)
  | c0 :: rest =>
    let rootEle := computeLayout c0 in
    let s1 := set_children (rootEle :: rest) s in
    let '(s2, diag) := take_renderport rootEle s1 in
    let s3 := set_children (layoutChildren (children s2)) s2 in
    let scale := Js.quot (vp_width (viewport s3)) (rp_width (renderport s3)) in
    let s4 := set_children (updateRealLayout (realLayoutBox s3) scale (children s3))
                           s3 in
    ([ComputeLayout] ++ diag
       ++ [LayoutChildren; UpdateRealLayout; ClearCanvas; RenderChildren],
     Js.Done (set_isDirty false s4))
  end.

Definition repaint (s : State) : list Op * Js.Res State :=
  ([ClearCanvas; RepaintChildren], Js.Done (set_isNeedRepaint false s)).

(** [tickerFunc] *)
Definition tickerFunc (s : State) : list Op * Js.Res State :=
  let s1 := TWEEN_update s in
  if isDirty s1 then
    let '(t, r) := reflow s1 in (TweenUpdate :: t, r)
  else if isNeedRepaint s1 then
    let '(t, r) := repaint s1 in (TweenUpdate :: t, r)
  else ([TweenUpdate], Js.Done s1).

End WithCollaborators.

(** *** Event routing *)

Definition inside (box : RealLayoutBox) (x y : Q) : bool :=
  (Qle_bool (realX box) x && Qle_bool x (realX box + r_width box))
  && (Qle_bool (realY box) y && Qle_bool y (realY box + r_height box)).

(** One iteration of the loop of [getChildByPos]: test [child], push it
    and descend into its children when the point is inside its box. *)
Fixpoint visit (x y : Q) (child : Element) (itemList : list Element)
  : list Element :=
  if inside (Tree.realLayoutBox child) x y then
    fold_left (fun acc c => visit x y c acc) (Tree.children child)
              (itemList ++ [child])
  else itemList.

Definition getChildByPos (tree_children : list Element) (x y : Q)
           (itemList : list Element) : list Element :=
  fold_left (fun acc c => visit x y c acc) tree_children itemList.

Inductive Target : Type :=
| This
| Node (e : Element).

Definition Emit : Type := (Target * string)%type.

Definition first_touch (e : TouchEvent) : Touch :=
  match touches e with
  | Some (t :: _) => t
  | _ =>
    match changedTouches e with
    | Some (t :: _) => t
    | _ => own e
    end
  end.

(** Modelled from the spec: [isClick] of ./common/util.js, which is not
    among the sources.  Section 4.5: the recorded touchstart and the
    touchend are within a small configured distance and elapsed-time
    threshold. *)
Definition isClick `{ClickConfig} (msg : gmap string Touch) : bool :=
  match msg !! "touchstart", msg !! "touchend" with
  | Some st, Some en =>
    match pageX st, pageY st, timeStamp st, pageX en, pageY en, timeStamp en with
    | Some sx, Some sy, Some t0, Some ex, Some ey, Some t1 =>
      Qle_bool ((ex - sx) * (ex - sx) + (ey - sy) * (ey - sy))
               (click_distance * click_distance)
      && Qle_bool 0 click_distance
      && Qle_bool (t1 - t0) click_time
    | _, _, _, _, _, _ => false
    end
  | _, _ => false
  end.

(** [if (!list.length) list.push(this); item = list[list.length - 1]] *)
Definition delivery_target (list : list Element) : Target :=
  let list :=
    match list with
    | [] => [This]
    | _ :: _ => List.map Node list
    end in
  List.last list This.

(** [if (!touch.timeStamp) touch.timeStamp = e.timeStamp] *)
Definition stamp (e : TouchEvent) (touch : Touch) : Touch :=
  if Js.truthy (timeStamp touch) then touch
  else mkTouch (pageX touch) (pageY touch) (timeStamp (own e)).

(** [eventHandler(eventName)] applied to an event [e]: the new state and
    the events emitted, in order. *)
Definition eventHandler `{ClickConfig} (eventName : string) (e : TouchEvent)
           (s : State) : State * list Emit :=
  let touch := first_touch e in
  if negb (Js.truthy (pageX touch)) || negb (Js.truthy (pageY touch))
  then (s, [])
  else
    match pageX touch, pageY touch with
    | Some x, Some y =>
      let touch := stamp e touch in
      let list := getChildByPos (children s) x y [] in
      let item := delivery_target list in
      let s1 :=
        if String.eqb eventName "touchstart" || String.eqb eventName "touchend"
        then set_touchMsg (<[eventName := touch]> (touchMsg s)) s
        else s in
      let click :=
        if String.eqb eventName "touchend" && isClick (touchMsg s1)
        then [(item, "click")] else [] in
      (s1, (item, eventName) :: click)
    | _, _ => (s, [])
    end.

(** The nodes [getChildByPos] reaches: a node is tested only when every
    node above it (below the container) has the point inside its box. *)
Fixpoint hits (x y : Q) (e : Element) : list Element :=
  if inside (Tree.realLayoutBox e) x y
  then e :: flat_map (hits x y) (Tree.children e)
  else [].

Inductive hit_chain (x y : Q) : list Element -> Element -> Prop :=
| hit_here (cs : list Element) (n : Element) :
    In n cs -> inside (Tree.realLayoutBox n) x y = true -> hit_chain x y cs n
| hit_below (cs : list Element) (p n : Element) :
    In p cs -> inside (Tree.realLayoutBox p) x y = true ->
    hit_chain x y (Tree.children p) n -> hit_chain x y cs n.

(** Which pass an operation of the trace belongs to. *)
Definition is_reflow_op (op : Op) : bool :=
  match op with
  | ComputeLayout | LayoutChildren | UpdateRealLayout | RenderChildren => true
  | _ => false
  end.

Definition is_repaint_op (op : Op) : bool :=
  match op with
  | RepaintChildren => true
  | _ => false
  end.

Definition is_solver_call (op : Op) : bool :=
  match op with
  | ComputeLayout => true
  | _ => false
  end.

Definition is_canvas_op (op : Op) : bool :=
  match op with
  | ClearCanvas | RenderChildren | RepaintChildren => true
  | _ => false
  end.

(** A number that the guard of the handler treats as absent. *)
Definition missing_or_zero (v : option Q) : Prop :=
  match v with
  | Some q => q == 0
  | None => True
  end.

(** Collaborators that do nothing: no running animation, and a solver
    and passes that keep the boxes the tree already carries. *)
Definition idle : Collaborators :=
  {| TWEEN_update := fun s => s;
     computeLayout := fun e => e;
     layoutChildren := fun cs => cs;
     updateRealLayout := fun _ _ cs => cs |}.

Definition sample_window : ClickConfig :=
  {| click_distance := 30; click_time := 300 |}.

(** A sequence of host events, each with the name its handler is bound
    to; the emissions are concatenated in order. *)
Fixpoint run_events `{ClickConfig} (evs : list (string * TouchEvent))
         (s : State) : State * list Emit :=
  match evs with
  | [] => (s, [])
  | (name, e) :: evs' =>
    let '(s1, out1) := eventHandler name e s in
    let '(s2, out2) := run_events evs' s1 in
    (s2, out1 ++ out2)
  end.

End Layout.

(** ** The [Image] component and the paths that raise the dirty flags *)

Module Image.

Record Image : Type := mkImage {
  imgsrc : string;
  img : option nat }.

(** The [src] setter: a new value is stored and handed to the image
    manager ([Some] request); assigning the current value does nothing. *)
Definition set_src (newValue : string) (i : Image) : Image * option string :=
  if String.eqb newValue (imgsrc i) then (i, None)
  else (mkImage newValue (img i), Some newValue).

(** The completion callback the setter passes to [loadImage]: keeps the
    loaded handle and emits ['repaint'] on the node. *)
Definition src_loaded (loaded : nat) (i : Image) : Image * list string :=
  (mkImage (imgsrc i) (Some loaded), ["repaint"]).

(** Modelled from the spec: [emit] of the element base class
    (./components/elements.js), which is not among the sources.  Section 6:
    the event pipe carries ['repaint']; an image-load completion marks the
    paint dirty.  An event emitted on a node reaches the listeners the
    container registered on the pipe. *)
Definition deliver (event : string) (s : Layout.State) : Layout.State :=
  if String.eqb event "repaint" then Layout.on_repaint s else s.

Definition deliver_all (events : list string) (s : Layout.State) : Layout.State :=
  fold_left (fun acc ev => deliver ev acc) events s.

(** Assigning [src] and, when a load was requested, its completion. *)
Definition assign_src (newValue : string) (loaded : nat) (i : Image)
           (s : Layout.State) : Image * Layout.State :=
  match set_src newValue i with
  | (i1, Some _) =>
    let '(i2, events) := src_loaded loaded i1 in (i2, deliver_all events s)
  | (i1, None) => (i1, s)
  end.

(** Modelled from the spec: the geometry setters of the element base class
    (./components/elements.js), which are not among the sources.  Section
    4.3: a mutation that changes geometry sets [needsLayout]. *)
Definition geometry_mutation (change : list Element -> list Element)
           (s : Layout.State) : Layout.State :=
  Layout.set_isDirty true (Layout.set_children (change (Layout.children s)) s).

End Image.

(** ** The render-context manager ([RenderContextManager])

    Objects compared by identity ([glRect]s, nodes, canvases) are
    represented by their references. *)

Module RCM.

(** A canvas: [blank] holds while nothing has been drawn on it since it
    was created or last cleared. *)
Record Surface : Type := mkSurface {
  canvas_id : nat;
  canvas_width : Q;
  canvas_height : Q;
  blank : bool }.

(** A node of the layout tree as the manager sees it: its identity, the
    reference of the [glRect] it owns (if any) and its children. *)
Inductive RNode : Type := mkRNode {
  node_ref : nat;
  glRect : option nat;
  rchildren : list RNode }.

Record LayoutRef : Type := mkLayoutRef {
  scrollview : option RNode }.

(** Module-level state: the shared [canvasPool] (the array end is the
    top) and the supply of fresh objects of the host. *)
Record Global : Type := mkGlobal {
  canvasPool : list (option Surface);
  next_canvas : nat;
  next_glRect : nat }.

Record Manager : Type := mkManager {
  canvas : Surface;
  glRects : list nat;
  scale : Q;
  width : Q;
  height : Q;
  layout : option LayoutRef;
  scrollCanvas : option Surface;
  hasSetup : bool;
  gl : option nat;
  scrollGl : option nat;
  hasScroll : bool;
  scrollGlrects : option (list nat);
  glTexture : gmap nat nat }.

Inductive GlOp : Type :=
| SetupGl (cid : nat)
| Viewport (cid : nat) (w h : Q)
| Clear (cid : nat)
| ResetGl (cid : nat)
| Repaint (cid : nat) (rects : list nat) (excluded : option (list nat)).

(** [wx.createCanvas()]: a new blank canvas of the host. *)
Definition createCanvas (g : Global) : Surface * Global :=
  (mkSurface (next_canvas g) 0 0 true,
   mkGlobal (canvasPool g) (S (next_canvas g)) (next_glRect g)).

(** [canvasPool.pop() || createCanvas()] *)
Definition acquire (g : Global) : Surface * Global :=
  match List.last (canvasPool g) None with
  | Some c => (c, mkGlobal (removelast (canvasPool g)) (next_canvas g) (next_glRect g))
  | None =>
    createCanvas (mkGlobal (removelast (canvasPool g)) (next_canvas g) (next_glRect g))
  end.

Definition constructor (main : Surface) (scale : Q) (g : Global) : Manager * Global :=
  let '(c, g1) := acquire g in
  (mkManager main [] scale 0 0 None (Some c) false None None false None ∅, g1).

Definition set_scrollCanvas (c : option Surface) (m : Manager) : Manager :=
  mkManager (canvas m) (glRects m) (scale m) (width m) (height m) (layout m) c
            (hasSetup m) (gl m) (scrollGl m) (hasScroll m) (scrollGlrects m)
            (glTexture m).

Definition set_glRects (l : list nat) (m : Manager) : Manager :=
  mkManager (canvas m) l (scale m) (width m) (height m) (layout m)
            (scrollCanvas m) (hasSetup m) (gl m) (scrollGl m) (hasScroll m)
            (scrollGlrects m) (glTexture m).

Definition createRoundRect (m : Manager) (g : Global) : nat * Manager * Global :=
  let r := next_glRect g in
  (r, set_glRects (glRects m ++ [r]) m,
   mkGlobal (canvasPool g) (next_canvas g) (S r)).

Definition clear (m : Manager) : Manager := set_glRects [] m.

Definition release (m : Manager) (g : Global) : Manager * Global :=
  (set_scrollCanvas None m,
   mkGlobal (canvasPool g ++ [scrollCanvas m]) (next_canvas g) (next_glRect g)).

Definition setupScrollGl (m : Manager) (g : Global)
  : list GlOp * Js.Res (Manager * Global) :=
  let '(c, g1) :=
    match scrollCanvas m with
    | Some c => (c, g)
    | None => acquire g
    end in
  let c1 := mkSurface (canvas_id c) (width m) (height m) true in
  let ops := [SetupGl (canvas_id c); Viewport (canvas_id c) (width m) (height m);
              Clear (canvas_id c)] in
  match layout m with
  | Some lay =>
    match scrollview lay with
    | Some sv =>
      match glRect sv with
      | Some r =>
        (ops,
         Js.Done
           (mkManager (canvas m) (glRects m) (scale m) (width m) (height m)
                      (layout m) (Some c1) (hasSetup m) (gl m)
                      (Some (canvas_id c)) (hasScroll m) (scrollGlrects m)
                      (<[r := canvas_id c]> (glTexture m)), g1))
      | None => (ops, Js.Fail Js.TypeError)
      end
    | None => (ops, Js.Fail Js.TypeError)
    end
  | None => (ops, Js.Fail Js.TypeError)
  end.

Definition is_scrollview (sv : option nat) (node : RNode) : bool :=
  match sv with
  | Some r => Nat.eqb (node_ref node) r
  | None => false
  end.

(** [getChildrenGlRects(node, res)]; the pair is [(this.glRects, res)]. *)
Fixpoint getChildrenGlRects (sv : option nat) (node : RNode)
         (st : list nat * list nat) : list nat * list nat :=
  let st1 :=
    if negb (is_scrollview sv node) then
      match glRect node with
      | Some r => (Js.splice1 (Js.indexOf (fst st) r) (fst st), snd st ++ [r])
      | None => st
      end
    else st in
  fold_left (fun acc child => getChildrenGlRects sv child acc) (rchildren node) st1.

(** [draw(needInit)] *)
Definition draw (needInit : bool) (m : Manager) : list GlOp * Js.Res Manager :=
  if negb (hasSetup m) || needInit then
    let main := mkSurface (canvas_id (canvas m)) (width m) (height m)
                          (blank (canvas m)) in
    let ops := [SetupGl (canvas_id main);
                Viewport (canvas_id main) (width m) (height m)] in
    match layout m with
    | None => (ops, Js.Fail Js.TypeError)
    | Some lay =>
      let '(rects, hs, sg) :=
        match scrollview lay with
        | Some sv =>
          let '(rects, res) :=
            getChildrenGlRects (Some (node_ref sv)) sv (glRects m, []) in
          (rects, true, Some res)
        | None => (glRects m, hasScroll m, scrollGlrects m)
        end in
      (ops ++ [ResetGl (canvas_id main); Repaint (canvas_id main) rects sg],
       Js.Done
         (mkManager main rects (scale m) (width m) (height m) (layout m)
                    (scrollCanvas m) true (Some (canvas_id main)) (scrollGl m)
                    hs sg (glTexture m)))
    end
  else
    ([ResetGl (canvas_id (canvas m));
      Repaint (canvas_id (canvas m)) (glRects m) (scrollGlrects m)],
     Js.Done m).

(** The [glRect] the walk moves at one node. *)
Definition own_glRect (sv : option nat) (node : RNode) : list nat :=
  match glRect node with
  | Some r => if is_scrollview sv node then [] else [r]
  | None => []
  end.

(** The [glRect]s the walk of [getChildrenGlRects] moves, in visiting
    order: those of every node of the subtree except the scrollview. *)
Fixpoint owned (sv : option nat) (node : RNode) : list nat :=
  own_glRect sv node ++ flat_map (owned sv) (rchildren node).

(** A node with everything below it, in pre-order; and its strict
    descendants alone. *)
Fixpoint subtree (node : RNode) : list RNode :=
  node :: flat_map subtree (rchildren node).

Definition descendants (node : RNode) : list RNode :=
  flat_map subtree (rchildren node).

Definition glRects_of (nodes : list RNode) : list nat :=
  flat_map (fun n => match glRect n with Some r => [r] | None => [] end) nodes.

(** Operations that touch the canvas [cid]. *)
Definition touches_canvas (cid : nat) (op : GlOp) : bool :=
  match op with
  | SetupGl c | Viewport c _ _ | Clear c | ResetGl c | Repaint c _ _ => Nat.eqb c cid
  end.

Definition memb (x : nat) (l : list nat) : bool := existsb (Nat.eqb x) l.

(** [l] without the elements of [d], order kept. *)
Definition without (d l : list nat) : list nat :=
  List.filter (fun x => negb (memb x d)) l.

(** What the walk does to [(this.glRects, res)] when the [glRect]s it
    meets are distinct and all in [this.glRects]. *)
Definition walk_moves (sv : option nat) (node : RNode) : Prop :=
  forall G R,
    List.NoDup G -> List.NoDup (owned sv node) -> incl (owned sv node) G ->
    getChildrenGlRects sv node (G, R)
    = (without (owned sv node) G, R ++ owned sv node).

(** How many entries of the pool are the canvas [cid]. *)
Definition count_surface (cid : nat) (pool : list (option Surface)) : nat :=
  List.length
    (List.filter (fun o => match o with
                           | Some c => Nat.eqb (canvas_id c) cid
                           | None => false
                           end) pool).

Definition is_clear (op : GlOp) : bool :=
  match op with
  | Clear _ => true
  | _ => false
  end.

(** Assignments the owner of the manager makes before drawing. *)
Definition set_layout (lay : LayoutRef) (m : Manager) : Manager :=
  mkManager (canvas m) (glRects m) (scale m) (width m) (height m) (Some lay)
            (scrollCanvas m) (hasSetup m) (gl m) (scrollGl m) (hasScroll m)
            (scrollGlrects m) (glTexture m).

Definition set_size (w h : Q) (m : Manager) : Manager :=
  mkManager (canvas m) (glRects m) (scale m) w h (layout m)
            (scrollCanvas m) (hasSetup m) (gl m) (scrollGl m) (hasScroll m)
            (scrollGlrects m) (glTexture m).

End RCM.

(** ** Sample trees and events *)

Module Samples.

Definition leaf (i : nat) (l : Box) (r : RealLayoutBox) (cs : list Element) : Element :=
  mkElement i None None l (mkLayoutBox 0 0) r cs.

(** A three-level tree: a 200 x 200 root element holding [A] at (10, 10),
    which holds [B] at (5, 5). *)
Definition B3 : Element :=
  leaf 3 (mkBox 5 5 20 20) (mkReal 0 0 0 0) [].
Definition A3 : Element :=
  leaf 2 (mkBox 10 10 100 100) (mkReal 0 0 0 0) [B3].
Definition root3 : Element :=
  mkElement 1 (Some 200) (Some 200) (mkBox 0 0 200 200) (mkLayoutBox 0 0)
            (mkReal 0 0 0 0) [A3].

Definition box400 : Layout.Viewport :=
  Layout.mkViewport (Some 400) (Some 400) (Some 0) (Some 0).

(** The container holding [root3], both flags raised. *)
Definition dirty3 : Layout.State :=
  Layout.updateViewPort box400
    (Layout.mkState [root3] (Layout.viewport Layout.init)
                    (Layout.renderport Layout.init) (0, 0) false true true ∅).

(** [A] at real box (0, 0, 100, 100) holding [B] at (10, 10, 20, 20). *)
Definition hitB : Element :=
  leaf 12 (mkBox 10 10 20 20) (mkReal 10 10 20 20) [].
Definition hitA : Element :=
  leaf 11 (mkBox 0 0 100 100) (mkReal 0 0 100 100) [hitB].

(** [A] as above, holding a child laid out outside of [A]'s box. *)
Definition farB : Element :=
  leaf 22 (mkBox 200 200 20 20) (mkReal 200 200 20 20) [].
Definition nearA : Element :=
  leaf 21 (mkBox 0 0 100 100) (mkReal 0 0 100 100) [farB].

Definition with_children (cs : list Element) : Layout.State :=
  Layout.set_children cs Layout.init.

(** A touch event with one touch point. *)
Definition touch_at (x y t : Q) : Layout.TouchEvent :=
  Layout.mkEvent (Some [Layout.mkTouch (Some x) (Some y) (Some t)])
                 (Some [Layout.mkTouch (Some x) (Some y) (Some t)])
                 (Layout.mkTouch None None (Some t)).

Definition target_at (cs : list Element) (p : Q * Q) : Layout.Target :=
  Layout.delivery_target (Layout.getChildByPos cs (fst p) (snd p) []).

(** The container holding [hitA]; a touch on the left edge of the screen;
    the states after a touchstart, and after a touchstart followed by a
    touchcancel. *)
Definition board : Layout.State := with_children [hitA].

Definition edge_touch : Layout.TouchEvent := touch_at 0 5 100.

Definition after_start (x y : Q) : Layout.State :=
  fst (@Layout.eventHandler Layout.sample_window "touchstart" (touch_at x y 0) board).

Definition started : Layout.State :=
  fst (@Layout.eventHandler Layout.sample_window "touchstart"
         (touch_at 10 10 1000) board).

Definition after_cancel : Layout.State :=
  fst (@Layout.eventHandler Layout.sample_window "touchcancel"
         (touch_at 10 10 1050) started).

Definition picture : Image.Image := Image.mkImage "a.png" None.

(** A canvas that has been drawn on, the main canvas, and a pool holding
    the former. *)
Definition used_canvas : RCM.Surface :=
  RCM.mkSurface 7 300 150 false.

Definition main_canvas : RCM.Surface :=
  RCM.mkSurface 100 0 0 true.

Definition pool0 : RCM.Global :=
  RCM.mkGlobal [Some used_canvas] 8 0.

(** The previous owner of canvas 7, about to release it. *)
Definition previous_manager : RCM.Manager :=
  RCM.mkManager (RCM.mkSurface 99 640 480 false) [] 1 640 480 None
                (Some used_canvas) true (Some 99%nat) None false None ∅.

Definition scroll_node : RCM.RNode :=
  RCM.mkRNode 51 (Some 1%nat)
    [RCM.mkRNode 52 (Some 2%nat) [];
     RCM.mkRNode 53 (Some 3%nat) []].

(** A manager over the main canvas 100, constructed from [pool0], with
    five primitives 0..4, of which 1 is the scrollview's and 2, 3 those of
    its two items. *)
Definition manager0 : RCM.Manager * RCM.Global :=
  let '(m, g) := RCM.constructor main_canvas 1 pool0 in
  let '(_, m, g) := RCM.createRoundRect m g in
  let '(_, m, g) := RCM.createRoundRect m g in
  let '(_, m, g) := RCM.createRoundRect m g in
  let '(_, m, g) := RCM.createRoundRect m g in
  let '(_, m, g) := RCM.createRoundRect m g in
  (RCM.set_size 640 480
     (RCM.set_layout
        (RCM.mkLayoutRef (Some scroll_node)) m), g).

End Samples.

(** ** Life cycle of the container: [layout], [bindEvents], [destroyAll], [clear] *)

Module Lifecycle.

Inductive STATE : Type := UNINIT | INITED | RENDERED | CLEAR.

(** Whether the host defines [__env]; otherwise the handlers go on
    [document]. *)
Inductive Host : Type := Env | Document.

Inductive Slot : Type :=
| onTouchStart | onTouchMove | onTouchEnd | onTouchCancel
| onmousedown | onmousemove | onmouseup | onmouseleave.

Definition slot_eqb (a b : Slot) : bool :=
  match a, b with
  | onTouchStart, onTouchStart | onTouchMove, onTouchMove
  | onTouchEnd, onTouchEnd | onTouchCancel, onTouchCancel
  | onmousedown, onmousedown | onmousemove, onmousemove
  | onmouseup, onmouseup | onmouseleave, onmouseleave => true
  | _, _ => false
  end.

(** The container with the fields the life cycle uses; [bindings] is what
    has been registered with the host, each slot with the event name its
    handler was created for. *)
Record Container : Type := mkContainer {
  core : Layout.State;
  hasEventHandler : bool;
  state : STATE;
  renderContext : option nat;
  bindings : list (Slot * string) }.

Definition fresh : Container :=
  mkContainer Layout.init false UNINIT None [].

Definition set_core (s : Layout.State) (c : Container) : Container :=
  mkContainer s (hasEventHandler c) (state c) (renderContext c) (bindings c).

Definition handlers (h : Host) : list (Slot * string) :=
  match h with
  | Env =>
    [(onTouchStart, "touchstart"); (onTouchMove, "touchmove");
     (onTouchEnd, "touchend"); (onTouchCancel, "touchcancel")]
  | Document =>
    [(onmousedown, "touchstart"); (onmousemove, "touchmove");
     (onmouseup, "touchend"); (onmouseleave, "touchend")]
  end.

Definition bindEvents (h : Host) (c : Container) : Container :=
  if hasEventHandler c then c
  else mkContainer (core c) true (state c) (renderContext c)
                   (bindings c ++ handlers h).

Definition viewport_error : string :=
  "Please invoke method `updateViewPort` before method `layout`".

(** [layout(context)] *)
Definition layout `{Layout.Collaborators} (h : Host) (context : nat)
           (c : Container) : list Layout.Op * Js.Res Container :=
  let diag :=
    if Layout.hasViewPortSet (core c) then []
    else [Layout.ConsoleError viewport_error] in
  let '(t, r) := Layout.reflow (core c) in
  (diag ++ t,
   match r with
   | Js.Done s' =>
     let c1 := bindEvents h (mkContainer s' (hasEventHandler c) (state c)
                                         (Some context) (bindings c)) in
     Js.Done (mkContainer (core c1) (hasEventHandler c1) RENDERED
                          (renderContext c1) (bindings c1))
   | Js.Fail e => Js.Fail e
   end).

(** A host event on [slot]: every handler registered for the slot runs, in
    registration order. *)
Fixpoint fire_all `{Layout.ClickConfig} (slot : Slot) (e : Layout.TouchEvent)
         (regs : list (Slot * string)) (s : Layout.State)
  : Layout.State * list Layout.Emit :=
  match regs with
  | [] => (s, [])
  | (sl, name) :: regs' =>
    if slot_eqb sl slot then
      let '(s1, out1) := Layout.eventHandler name e s in
      let '(s2, out2) := fire_all slot e regs' s1 in
      (s2, out1 ++ out2)
    else fire_all slot e regs' s
  end.

Definition fire `{Layout.ClickConfig} (slot : Slot) (e : Layout.TouchEvent)
           (c : Container) : Container * list Layout.Emit :=
  let '(s, out) := fire_all slot e (bindings c) (core c) in
  (set_core s c, out).

Inductive Call : Type :=
| Destroy (e : Element)
| DestroySelf (e : Element).

(** [destroyAll(tree)] as the calls it makes on the nodes, for node
    methods that leave the [children] arrays alone; [hs] tells which nodes
    define [destroySelf]. *)
Fixpoint destroyChild (hs : Element -> bool) (child : Element) : list Call :=
  Destroy child
    :: flat_map (destroyChild hs) (Tree.children child)
    ++ (if hs child then [DestroySelf child] else []).

Definition destroyAll (hs : Element -> bool) (tree_children : list Element)
  : list Call :=
  flat_map (destroyChild hs) tree_children.

(** [clear()] *)
Definition clear (hs : Element -> bool) (c : Container)
  : list Call * list Layout.Op * Container :=
  (destroyAll hs (Layout.children (core c)),
   [Layout.ClearCanvas],
   mkContainer (Layout.set_children [] (core c)) (hasEventHandler c) CLEAR
               (renderContext c) (bindings c)).

Definition destroyed (calls : list Call) : list Element :=
  flat_map (fun k => match k with Destroy e => [e] | DestroySelf _ => [] end) calls.

Definition self_destroyed (calls : list Call) : list Element :=
  flat_map (fun k => match k with Destroy _ => [] | DestroySelf e => [e] end) calls.

Fixpoint postorder (e : Element) : list Element :=
  flat_map postorder (Tree.children e) ++ [e].

(** The event name of the handler registered for [slot], if any. *)
Definition handler_name (regs : list (Slot * string)) (slot : Slot) : option string :=
  match List.find (fun r => slot_eqb (fst r) slot) regs with
  | Some r => Some (snd r)
  | None => None
  end.

Definition is_this (t : Layout.Target) : bool :=
  match t with
  | Layout.This => true
  | Layout.Node _ => false
  end.

End Lifecycle.

(** ** The [Image] node: [isScrollViewChild], [render], [repaint], [insert],
    [destroySelf] *)

Module ImageNode.

Record Style : Type := mkStyle {
  borderColor : option string;
  borderWidth : option Q }.

Record LayoutBox : Type := mkBox {
  absoluteX : Q; absoluteY : Q; width : Q; height : Q }.

(** An entry [{ ctx, box }] of [renderBoxes]. *)
Record RenderBox : Type := mkRenderBox {
  ctx : nat;
  box : option LayoutBox }.

(** [ancestors] holds the [type] of the parent, of its parent, and so on;
    [has_src] holds while the [src] accessor is defined on the node. *)
Record Node : Type := mkNode {
  image : Image.Image;
  style : option Style;
  layoutBox : option LayoutBox;
  renderBoxes : list RenderBox;
  isDestroyed : bool;
  has_src : bool;
  ancestors : list string }.

Inductive CanvasOp : Type :=
| Save (c : nat)
| StrokeStyle (c : nat) (color : string)
| LineWidth (c : nat) (w : Q)
| RenderBorder (c : nat) (layoutBox : option LayoutBox)
| DrawImage (c : nat) (img : nat) (x y w h : Q)
| Restore (c : nat).

Definition set_image (i : Image.Image) (n : Node) : Node :=
  mkNode i (style n) (layoutBox n) (renderBoxes n) (isDestroyed n) (has_src n)
         (ancestors n).

Definition set_img (v : option nat) (n : Node) : Node :=
  set_image (Image.mkImage (Image.imgsrc (image n)) v) n.

(** The loop of the [isScrollViewChild] getter over the parent chain. *)
Fixpoint scrollview_above (chain : list string) : bool :=
  match chain with
  | [] => false
  | t :: up => if String.eqb t "ScrollView" then true else scrollview_above up
  end.

Definition isScrollViewChild (n : Node) : bool := scrollview_above (ancestors n).

(** [render(ctx, layoutBox)]: the canvas calls made, and whether the
    method came back. *)
Definition render (c : nat) (arg : option LayoutBox) (n : Node)
  : list CanvasOp * Js.Res unit :=
  match Image.img (image n) with
  | None => ([], Js.Done tt)
  | Some i =>
    let st := match style n with
              | Some st => st
              | None => mkStyle None None
              end in
    let stroke := match borderColor st with
                  | Some col => if String.eqb col "" then [] else [StrokeStyle c col]
                  | None => []
                  end in
    let pre := [Save c] ++ stroke ++ [LineWidth c (Js.or_zero (borderWidth st))] in
    match (match arg with
           | Some b => Some b
           | None => layoutBox n
           end) with
    | None => (pre, Js.Fail Js.TypeError)
    | Some b =>
      (pre ++ [RenderBorder c arg;
               DrawImage c i (absoluteX b) (absoluteY b) (width b) (height b);
               Restore c],
       Js.Done tt)
    end
  end.

(** [renderBoxes.forEach(item => this.render(item.ctx, item.box, false))] *)
Fixpoint render_each (items : list RenderBox) (n : Node)
  : list CanvasOp * Js.Res unit :=
  match items with
  | [] => ([], Js.Done tt)
  | item :: rest =>
    match render (ctx item) (box item) n with
    | (ops, Js.Done _) =>
      let '(ops', r) := render_each rest n in (ops ++ ops', r)
    | (ops, Js.Fail e) => (ops, Js.Fail e)
    end
  end.

Definition repaint (n : Node) : list CanvasOp * Js.Res unit :=
  render_each (renderBoxes n) n.

Definition destroySelf (n : Node) : Node :=
  mkNode (Image.mkImage (Image.imgsrc (image n)) None) (style n) (layoutBox n)
         (renderBoxes n) true false (ancestors n).

(** What [imageManager.loadImage] does with a request: for a cached image
    the callback runs, with [fromCache] set, before the call returns; else
    it runs once the load is done.  [returned] is the value of the call. *)
Inductive Load : Type :=
| FromCache (img : nat) (returned : option nat)
| Deferred (returned : option nat).

(** [insert(ctx, box)] up to the return of [loadImage]. *)
Definition insert (c : nat) (b : option LayoutBox) (load : Load) (n : Node)
  : Node * (list CanvasOp * Js.Res unit) :=
  let n1 := mkNode (image n) (style n) (layoutBox n)
                   (renderBoxes n ++ [mkRenderBox c b]) (isDestroyed n)
                   (has_src n) (ancestors n) in
  match load with
  | FromCache i returned =>
    match render c b (set_img (Some i) n1) with
    | (ops, Js.Done _) => (set_img returned n1, (ops, Js.Done tt))
    | (ops, Js.Fail e) => (set_img (Some i) n1, (ops, Js.Fail e))
    end
  | Deferred returned => (set_img returned n1, ([], Js.Done tt))
  end.

(** The callback of [insert] when a deferred load is done: the names of
    the events emitted on the pipe. *)
Definition insert_loaded (n : Node) : list string :=
  match Image.img (image n) with
  | Some _ =>
    [if isScrollViewChild n then "image__render__done"
     else "one__image__render__done"]
  | None => []
  end.

(** [node.src = newValue]: the accessor of the constructor while it is
    defined; after [delete this.src] a plain property. *)
Definition assign (newValue : string) (n : Node) : Node * option string :=
  if has_src n then
    let '(i, request) := Image.set_src newValue (image n) in (set_image i n, request)
  else (n, None).

Definition is_draw (op : CanvasOp) : bool :=
  match op with
  | DrawImage _ _ _ _ _ _ => true
  | _ => false
  end.

(** The depth of the canvas state stack after [ops], starting at [d];
    [None] when a [Restore] meets an empty stack. *)
Fixpoint stack_after (d : nat) (ops : list CanvasOp) : option nat :=
  match ops with
  | [] => Some d
  | Save _ :: ops' => stack_after (S d) ops'
  | Restore _ :: ops' =>
    match d with
    | O => None
    | S d' => stack_after d' ops'
    end
  | _ :: ops' => stack_after d ops'
  end.

(** The draw a recorded box asks for, for a node holding image [i]. *)
Definition draw_of (i : nat) (own : option LayoutBox) (item : RenderBox)
  : list CanvasOp :=
  match (match box item with
         | Some b => Some b
         | None => own
         end) with
  | Some b => [DrawImage (ctx item) i (absoluteX b) (absoluteY b) (width b) (height b)]
  | None => []
  end.

Definition has_box (own : option LayoutBox) (item : RenderBox) : bool :=
  match box item, own with
  | None, None => false
  | _, _ => true
  end.

End ImageNode.

(** ** Further samples *)

Module Samples2.

Definition done_or {A : Type} (d : A) (r : Js.Res A) : A :=
  match r with
  | Js.Done a => a
  | Js.Fail _ => d
  end.

(** A container holding [Samples.root3] with both flags raised and no
    viewport set, so that the scale of a reflow is [NaN]; the states after
    one and after two ticks from it. *)
Definition blind : Layout.State :=
  Layout.mkState [Samples.root3] (Layout.viewport Layout.init)
                 (Layout.renderport Layout.init) (0, 0) false true true ∅.

Definition tick1 : Layout.State :=
  done_or Layout.init (snd (@Layout.tickerFunc Layout.idle blind)).

Definition tick2 : Layout.State :=
  done_or Layout.init (snd (@Layout.tickerFunc Layout.idle tick1)).

(** A container around [blind], laid out once and twice. *)
Definition container0 : Lifecycle.Container :=
  Lifecycle.mkContainer blind false Lifecycle.INITED None [].

Definition laid1 : Lifecycle.Container :=
  done_or container0
          (snd (@Lifecycle.layout Layout.idle Lifecycle.Env 1 container0)).

Definition laid2 : Lifecycle.Container :=
  done_or container0 (snd (@Lifecycle.layout Layout.idle Lifecycle.Env 2 laid1)).

(** An image below a scroll view, holding image 7, recorded on canvas 1
    with an explicit box and with its own box. *)
Definition box_a : ImageNode.LayoutBox := ImageNode.mkBox 10 20 90 90.
Definition box_own : ImageNode.LayoutBox := ImageNode.mkBox 0 0 50 50.

Definition pic_node : ImageNode.Node :=
  ImageNode.mkNode (Image.mkImage "a.png" (Some 7%nat)) None (Some box_own)
                   [ImageNode.mkRenderBox 1 (Some box_a); ImageNode.mkRenderBox 1 None]
                   false true ["View"; "ScrollView"].

(** [Samples.manager0] after its first draw; a second manager holding the
    main canvas as its scroll canvas. *)
Definition drawn0 : RCM.Manager :=
  done_or (fst Samples.manager0) (snd (RCM.draw false (fst Samples.manager0))).

Definition other_manager : RCM.Manager :=
  RCM.set_scrollCanvas (Some Samples.main_canvas) Samples.previous_manager.

End Samples2.

(** * Properties *)

(** ** Scheduler *)

Section Scheduler.
Context `{Layout.Collaborators}.

Lemma take_renderport_keeps (rootEle : Element) (s : Layout.State) :
  let s2 := fst (Layout.take_renderport rootEle s) in
  Layout.children s2 = Layout.children s
  /\ Layout.viewport s2 = Layout.viewport s
  /\ Layout.realLayoutBox s2 = Layout.realLayoutBox s
  /\ Layout.isDirty s2 = Layout.isDirty s
  /\ Layout.isNeedRepaint s2 = Layout.isNeedRepaint s
  /\ Layout.touchMsg s2 = Layout.touchMsg s.
Proof.
  unfold Layout.take_renderport.
  destruct (style_width rootEle), (style_height rootEle); cbn; auto 10.
Qed.

Lemma take_renderport_diag (rootEle : Element) (s : Layout.State) :
  snd (Layout.take_renderport rootEle s) = []
  \/ snd (Layout.take_renderport rootEle s) = [Layout.ConsoleError Layout.root_error].
Proof.
  unfold Layout.take_renderport.
  destruct (style_width rootEle), (style_height rootEle); cbn; auto.
Qed.

Lemma reflow_trace (s : Layout.State) :
  fst (Layout.reflow s) =
  match Layout.children s with
  | [] => [Layout.ComputeLayout]
  | c0 :: rest =>
    [Layout.ComputeLayout]
      ++ snd (Layout.take_renderport (Layout.computeLayout c0)
                (Layout.set_children (Layout.computeLayout c0 :: rest) s))
      ++ [Layout.LayoutChildren; Layout.UpdateRealLayout; Layout.ClearCanvas;
          Layout.RenderChildren]
  end.
Proof.
  unfold Layout.reflow.
  destruct (Layout.children s) as [|c0 rest]; [reflexivity|].
  now destruct (Layout.take_renderport _ _) as [s2 diag].
Qed.

Lemma reflow_trace_no_repaint (s : Layout.State) :
  existsb Layout.is_repaint_op (fst (Layout.reflow s)) = false.
Proof.
  rewrite reflow_trace.
  destruct (Layout.children s) as [|c0 rest]; [reflexivity|].
  destruct (take_renderport_diag (Layout.computeLayout c0)
              (Layout.set_children (Layout.computeLayout c0 :: rest) s)) as [E|E];
    rewrite E; reflexivity.
Qed.

Lemma reflow_result (s : Layout.State) :
  match snd (Layout.reflow s) with
  | Js.Done s' =>
    Layout.isDirty s' = false
    /\ Layout.isNeedRepaint s' = Layout.isNeedRepaint s
    /\ Layout.touchMsg s' = Layout.touchMsg s
    /\ Layout.viewport s' = Layout.viewport s
    /\ Layout.realLayoutBox s' = Layout.realLayoutBox s
    /\ Layout.children s <> []
  | Js.Fail e => e = Js.TypeError /\ Layout.children s = []
  end.
Proof.
  unfold Layout.reflow.
  destruct (Layout.children s) as [|c0 rest] eqn:Hc; [split; reflexivity|].
  pose proof (take_renderport_keeps (Layout.computeLayout c0)
                (Layout.set_children (Layout.computeLayout c0 :: rest) s)) as Hk.
  destruct (Layout.take_renderport _ _) as [s2 diag]. cbn [fst snd] in *.
  destruct Hk as (_ & Hv & Hb & _ & Hr & Ht). cbn in Hv, Hb, Hr, Ht.
  cbn. repeat split; auto; try discriminate.
Qed.

Lemma reflow_flags (s s' : Layout.State) :
  snd (Layout.reflow s) = Js.Done s' ->
  Layout.isDirty s' = false
  /\ Layout.isNeedRepaint s' = Layout.isNeedRepaint s
  /\ Layout.touchMsg s' = Layout.touchMsg s.
Proof.
  intros E. pose proof (reflow_result s) as Hr. rewrite E in Hr.
  destruct Hr as (H1 & H2 & H3 & _). auto.
Qed.

Lemma reflow_comes_back (s : Layout.State) :
  Layout.children s <> [] -> exists s', snd (Layout.reflow s) = Js.Done s'.
Proof.
  intros Hne. unfold Layout.reflow.
  destruct (Layout.children s) as [|c0 rest]; [contradiction|].
  destruct (Layout.take_renderport _ _) as [s2 diag]. eexists. reflexivity.
Qed.

(** C2. A tick first advances the animations; what follows is the reflow
    pass when [isDirty] is set after that step, otherwise the repaint pass
    when [isNeedRepaint] is set, otherwise nothing (the state is the one
    the animation step left).  The animation step runs once, and no trace
    holds operations of both a reflow and a repaint pass. *)
Theorem tick_order (s : Layout.State) :
  let s1 := Layout.TWEEN_update s in
  let trace := fst (Layout.tickerFunc s) in
  let passes :=
    if Layout.isDirty s1 then fst (Layout.reflow s1)
    else if Layout.isNeedRepaint s1 then fst (Layout.repaint s1)
    else [] in
  trace = Layout.TweenUpdate :: passes
  /\ snd (Layout.tickerFunc s) =
     (if Layout.isDirty s1 then snd (Layout.reflow s1)
      else if Layout.isNeedRepaint s1 then snd (Layout.repaint s1)
      else Js.Done s1)
  /\ existsb Layout.is_reflow_op trace && existsb Layout.is_repaint_op trace = false
  /\ (if Layout.isDirty s1 || Layout.isNeedRepaint s1 then True
      else existsb Layout.is_reflow_op trace = false
           /\ existsb Layout.is_canvas_op trace = false).
Proof.
  cbn zeta. unfold Layout.tickerFunc.
  destruct (Layout.isDirty (Layout.TWEEN_update s)) eqn:Ed.
  - pose proof (reflow_trace_no_repaint (Layout.TWEEN_update s)) as Hr.
    destruct (Layout.reflow (Layout.TWEEN_update s)) as [t r]. cbn in *.
    rewrite Hr. rewrite andb_false_r. auto.
  - destruct (Layout.isNeedRepaint (Layout.TWEEN_update s)) eqn:En; cbn; auto.
Qed.

(** C3 (amended).  A tick that takes the reflow path and comes back has
    cleared [isDirty] and left [isNeedRepaint] as the animation step left
    it; a tick that takes the repaint path clears [isNeedRepaint] only.
    Every tick comes back, whatever the viewport, the render port and the
    scale are, except a reflow tick on a container without a root element,
    which throws. *)
Theorem tick_flags (s : Layout.State) :
  let s1 := Layout.TWEEN_update s in
  match snd (Layout.tickerFunc s) with
  | Js.Done s' =>
    if Layout.isDirty s1 then
      Layout.isDirty s' = false
      /\ Layout.isNeedRepaint s' = Layout.isNeedRepaint s1
    else if Layout.isNeedRepaint s1 then
      s' = Layout.set_isNeedRepaint false s1
      /\ Layout.isNeedRepaint s' = false
      /\ Layout.isDirty s' = Layout.isDirty s1
    else s' = s1
  | Js.Fail e =>
    Layout.isDirty s1 = true /\ e = Js.TypeError /\ Layout.children s1 = []
  end
  /\ match Layout.isDirty s1, Layout.children s1 with
     | true, [] => snd (Layout.tickerFunc s) = Js.Fail Js.TypeError
     | _, _ => exists s', snd (Layout.tickerFunc s) = Js.Done s'
     end.
Proof.
  cbn zeta. unfold Layout.tickerFunc.
  destruct (Layout.isDirty (Layout.TWEEN_update s)) eqn:Ed.
  - pose proof (reflow_result (Layout.TWEEN_update s)) as Hf.
    destruct (Layout.reflow (Layout.TWEEN_update s)) as [t [s'|e]]; cbn [snd] in *.
    + destruct Hf as (H1 & H2 & _ & _ & _ & Hne). split; [auto|].
      destruct (Layout.children (Layout.TWEEN_update s)); [contradiction|].
      now exists s'.
    + destruct Hf as [-> Hnil]. rewrite Hnil. auto.
  - destruct (Layout.isNeedRepaint (Layout.TWEEN_update s)) eqn:En; cbn;
      (split; [auto|]);
      destruct (Layout.children (Layout.TWEEN_update s)); eexists; reflexivity.
Qed.

End Scheduler.

(** C3, as stated, fails: a tick that reflows with both flags raised
    clears [isDirty] and leaves [isNeedRepaint] raised. *)
Lemma reflow_keeps_repaint_flag_cex :
  Layout.isDirty (@Layout.TWEEN_update Layout.idle Samples.dirty3) = true
  /\ Layout.isNeedRepaint (@Layout.TWEEN_update Layout.idle Samples.dirty3) = true
  /\ match snd (@Layout.tickerFunc Layout.idle Samples.dirty3) with
     | Js.Done s' => Layout.isDirty s' = false /\ Layout.isNeedRepaint s' = true
     | Js.Fail _ => False
     end.
Proof. vm_compute. repeat split; reflexivity. Qed.

(** ** Event routing *)

Lemma Element_forest_ind (P : Element -> Prop) :
  (forall e, Forall P (Tree.children e) -> P e) -> forall e, P e.
Proof.
  intros step. fix rec 1. intros e. apply step.
  destruct e as [i sw sh l lb rb cs]. cbn.
  induction cs as [|c cs IHcs]; constructor; [apply rec | exact IHcs].
Qed.

Lemma fold_visit_app (x y : Q) (cs : list Element) :
  Forall (fun c => forall acc, Layout.visit x y c acc = acc ++ Layout.hits x y c) cs ->
  forall acc,
    fold_left (fun a c => Layout.visit x y c a) cs acc
    = acc ++ flat_map (Layout.hits x y) cs.
Proof.
  induction 1 as [|c cs Hc _ IH]; intros acc; cbn.
  - now rewrite app_nil_r.
  - rewrite Hc, IH. now rewrite <- app_assoc.
Qed.

Lemma visit_hits (x y : Q) (e : Element) (acc : list Element) :
  Layout.visit x y e acc = acc ++ Layout.hits x y e.
Proof.
  revert acc. induction e as [e IH] using Element_forest_ind. intros acc.
  destruct e as [i sw sh l lb rb cs]. cbn in *.
  destruct (Layout.inside rb x y).
  - rewrite (fold_visit_app x y cs IH). now rewrite <- app_assoc.
  - now rewrite app_nil_r.
Qed.

Lemma getChildByPos_hits (cs : list Element) (x y : Q) (acc : list Element) :
  Layout.getChildByPos cs x y acc = acc ++ flat_map (Layout.hits x y) cs.
Proof.
  unfold Layout.getChildByPos. apply fold_visit_app.
  apply Forall_forall. intros c _ a. apply visit_hits.
Qed.

Lemma hits_unfold (x y : Q) (e : Element) :
  Layout.hits x y e =
  if Layout.inside (Tree.realLayoutBox e) x y
  then e :: flat_map (Layout.hits x y) (Tree.children e)
  else [].
Proof. destruct e; reflexivity. Qed.

Lemma hits_sound (x y : Q) (e : Element) :
  forall n, In n (Layout.hits x y e) ->
    Layout.inside (Tree.realLayoutBox e) x y = true
    /\ (n = e \/ Layout.hit_chain x y (Tree.children e) n).
Proof.
  induction e as [e IH] using Element_forest_ind. intros n Hin.
  rewrite hits_unfold in Hin.
  destruct (Layout.inside (Tree.realLayoutBox e) x y) eqn:Hbox; [|contradiction].
  split; [reflexivity|].
  destruct Hin as [Heq|Hin]; [left; congruence|right].
  apply List.in_flat_map in Hin as (c & Hc & Hn).
  rewrite List.Forall_forall in IH.
  destruct (IH c Hc n Hn) as [Hi [Heq|Hch]].
  - subst n. now apply Layout.hit_here.
  - now apply Layout.hit_below with (p := c).
Qed.

Lemma hits_complete (x y : Q) (cs : list Element) (n : Element) :
  Layout.hit_chain x y cs n -> In n (flat_map (Layout.hits x y) cs).
Proof.
  induction 1 as [cs n Hin Hbox | cs p n Hin Hbox _ IH].
  - apply List.in_flat_map. exists n. split; [assumption|].
    rewrite hits_unfold, Hbox. now left.
  - apply List.in_flat_map. exists p. split; [assumption|].
    rewrite hits_unfold, Hbox. now right.
Qed.

Lemma flat_map_sublist {A B : Type} (f g : A -> list B) (l : list A) :
  Forall (fun a => f a `sublist_of` g a) l ->
  flat_map f l `sublist_of` flat_map g l.
Proof.
  induction 1 as [|a l Ha _ IH]; cbn; [constructor|].
  now apply sublist_app.
Qed.

Lemma hits_sublist (x y : Q) (e : Element) :
  Layout.hits x y e `sublist_of` Tree.preorder e.
Proof.
  induction e as [e IH] using Element_forest_ind.
  rewrite hits_unfold. destruct e as [i sw sh l lb rb cs]; cbn in *.
  destruct (Layout.inside rb x y).
  - apply sublist_skip. now apply flat_map_sublist.
  - apply sublist_nil_l.
Qed.

Lemma truthy_nonzero (q : Q) : ~ q == 0 -> Js.truthy (Some q) = true.
Proof.
  intros Hq. cbn. destruct (Qeq_bool q 0) eqn:E; [|reflexivity].
  apply Qeq_bool_iff in E. contradiction.
Qed.

Lemma truthy_missing (v : option Q) :
  Layout.missing_or_zero v -> Js.truthy v = false.
Proof.
  destruct v as [q|]; cbn; [|reflexivity].
  intros Hq. apply Qeq_bool_iff in Hq. now rewrite Hq.
Qed.

Section Routing.
Context `{Layout.ClickConfig}.

Lemma handler_dispatch (name : string) (e : Layout.TouchEvent)
      (s : Layout.State) (x y : Q) :
  Layout.pageX (Layout.first_touch e) = Some x ->
  Layout.pageY (Layout.first_touch e) = Some y ->
  ~ x == 0 -> ~ y == 0 ->
  Layout.eventHandler name e s =
  (let item := Layout.delivery_target (Layout.getChildByPos (Layout.children s) x y []) in
   let s1 :=
     if String.eqb name "touchstart" || String.eqb name "touchend"
     then Layout.set_touchMsg
            (<[name := Layout.stamp e (Layout.first_touch e)]> (Layout.touchMsg s)) s
     else s in
   (s1, (item, name) ::
        (if String.eqb name "touchend" && Layout.isClick (Layout.touchMsg s1)
         then [(item, "click")] else []))).
Proof.
  intros Hx Hy Hx0 Hy0. unfold Layout.eventHandler.
  rewrite Hx, Hy, (truthy_nonzero x Hx0), (truthy_nonzero y Hy0). reflexivity.
Qed.

(** C10. An event whose touch point has a missing or zero [pageX] or
    [pageY] is dropped by the handler: nothing is emitted and the state,
    the gesture record included, is the one before the event. *)
Theorem zero_coordinate_dropped (name : string) (e : Layout.TouchEvent)
        (s : Layout.State) :
  Layout.missing_or_zero (Layout.pageX (Layout.first_touch e))
  \/ Layout.missing_or_zero (Layout.pageY (Layout.first_touch e)) ->
  Layout.eventHandler name e s = (s, [])
  /\ Layout.touchMsg (fst (Layout.eventHandler name e s)) = Layout.touchMsg s.
Proof.
  intros Hz. assert (Layout.eventHandler name e s = (s, [])) as Heq.
  { unfold Layout.eventHandler.
    destruct Hz as [Hz|Hz]; rewrite (truthy_missing _ Hz); cbn.
    - reflexivity.
    - now rewrite orb_true_r. }
  now rewrite Heq.
Qed.

(** C4 (amended).  For an event whose touch point (x, y) has non-zero
    coordinates, the list the router collects holds exactly the nodes
    whose own box and the boxes of all nodes above them (below the
    container) contain the point, in pre-order, so a node comes after
    the nodes above it; the first emission goes to the last node of the
    list, or to the container when the list is empty, and every emission
    of the handler goes to that one target.  On the sample tree the
    targets at (15,15), (50,50) and (500,500) are B, A and the container. *)
Theorem dispatch_target (name : string) (e : Layout.TouchEvent)
        (s : Layout.State) (x y : Q) :
  Layout.pageX (Layout.first_touch e) = Some x ->
  Layout.pageY (Layout.first_touch e) = Some y ->
  ~ x == 0 -> ~ y == 0 ->
  let list := Layout.getChildByPos (Layout.children s) x y [] in
  let out := snd (Layout.eventHandler name e s) in
  (forall n, In n list <-> Layout.hit_chain x y (Layout.children s) n)
  /\ list = flat_map (Layout.hits x y) (Layout.children s)
  /\ list `sublist_of` Tree.preorder_forest (Layout.children s)
  /\ hd_error out = Some (Layout.delivery_target list, name)
  /\ (forall t ev, In (t, ev) out -> t = Layout.delivery_target list)
  /\ (list = [] -> Layout.delivery_target list = Layout.This)
  /\ (forall l n, list = l ++ [n] -> Layout.delivery_target list = Layout.Node n)
  /\ List.map (Samples.target_at [Samples.hitA]) [(15, 15); (50, 50); (500, 500)]
     = [Layout.Node Samples.hitB; Layout.Node Samples.hitA; Layout.This].
Proof.
  intros Hx Hy Hx0 Hy0. cbn zeta.
  rewrite (handler_dispatch name e s x y Hx Hy Hx0 Hy0). cbn zeta.
  rewrite getChildByPos_hits. cbn [app snd].
  split; [|split; [|split; [|split; [|split; [|split; [|split]]]]]].
  - intros n. split; [|apply hits_complete].
    intros Hin. apply List.in_flat_map in Hin as (c & Hc & Hn).
    destruct (hits_sound x y c n Hn) as [Hi [Heq|Hch]].
    + subst n. now apply Layout.hit_here.
    + now apply Layout.hit_below with (p := c).
  - reflexivity.
  - apply flat_map_sublist. apply List.Forall_forall. intros c _. apply hits_sublist.
  - reflexivity.
  - intros t ev [Heq|Hin]; [congruence|].
    destruct (_ && _); [|contradiction].
    destruct Hin as [Heq|[]]. congruence.
  - intros ->. reflexivity.
  - intros l n ->. unfold Layout.delivery_target.
    destruct (l ++ [n]) as [|a k] eqn:E; [now destruct l|].
    rewrite <- E, List.map_app. cbn. now rewrite List.last_last.
  - vm_compute. reflexivity.
Qed.

End Routing.

Ltac q_nonzero := let E := fresh "E" in intros E; vm_compute in E; discriminate E.

Lemma zero_coordinate_dropped_witness :
  (Layout.missing_or_zero (Layout.pageX (Layout.first_touch Samples.edge_touch))
   \/ Layout.missing_or_zero (Layout.pageY (Layout.first_touch Samples.edge_touch)))
  /\ @Layout.eventHandler Layout.sample_window "touchstart" Samples.edge_touch
       Samples.board
     = (Samples.board, []).
Proof.
  assert (Layout.missing_or_zero (Layout.pageX (Layout.first_touch Samples.edge_touch))
          \/ Layout.missing_or_zero
               (Layout.pageY (Layout.first_touch Samples.edge_touch))) as Hz.
  { left. cbn. reflexivity. }
  split; [exact Hz|].
  exact (proj1 (@zero_coordinate_dropped Layout.sample_window "touchstart"
                  Samples.edge_touch Samples.board Hz)).
Defined.

Lemma dispatch_target_witness :
  Layout.pageX (Layout.first_touch (Samples.touch_at 15 15 0)) = Some 15
  /\ Layout.pageY (Layout.first_touch (Samples.touch_at 15 15 0)) = Some 15
  /\ ~ 15 == 0
  /\ hd_error (snd (@Layout.eventHandler Layout.sample_window "touchmove"
                      (Samples.touch_at 15 15 0) Samples.board))
     = Some (Layout.delivery_target
               (Layout.getChildByPos (Layout.children Samples.board) 15 15 []),
             "touchmove").
Proof.
  assert (~ 15 == 0) as Hn by q_nonzero.
  split; [reflexivity|]. split; [reflexivity|]. split; [exact Hn|].
  exact (proj1 (proj2 (proj2 (proj2
    (@dispatch_target Layout.sample_window "touchmove" (Samples.touch_at 15 15 0)
       Samples.board 15 15 eq_refl eq_refl Hn Hn))))).
Defined.

(** C4, as stated, fails: a node whose box contains the point is not
    collected when the box of the node above it does not contain the
    point, and the event then goes to the container; and an event on the
    left edge of the screen has no target at all, although the box of A
    contains its point. *)
Lemma hit_test_prunes_cex :
  In Samples.farB (Tree.preorder_forest [Samples.nearA])
  /\ Layout.inside (Tree.realLayoutBox Samples.farB) 205 205 = true
  /\ Layout.getChildByPos [Samples.nearA] 205 205 [] = []
  /\ snd (@Layout.eventHandler Layout.sample_window "touchstart"
            (Samples.touch_at 205 205 0) (Samples.with_children [Samples.nearA]))
     = [(Layout.This, "touchstart")]
  /\ Layout.inside (Tree.realLayoutBox Samples.hitA) 0 5 = true
  /\ snd (@Layout.eventHandler Layout.sample_window "touchstart"
            Samples.edge_touch Samples.board)
     = [].
Proof.
  split; [right; left; reflexivity|].
  repeat split; vm_compute; reflexivity.
Qed.

Section Clicks.
Context `{Layout.ClickConfig}.

(** C5 (amended).  For a touchend whose touch point has non-zero
    coordinates, the handler stores the touch as the ["touchend"] entry of
    the gesture record, emits ['touchend'] on the delivery target and,
    exactly when the record then passes the click test, emits ['click']
    on the same target after it.  With a window of 30 px and 300 ms, a
    touchstart at (10,10) at t=0 followed by a touchend at (12,11) at t=150
    gives touchend then click on one target; a touchend at t=2000 gives
    no click. *)
Theorem click_synthesis (e : Layout.TouchEvent) (s : Layout.State) (x y : Q) :
  Layout.pageX (Layout.first_touch e) = Some x ->
  Layout.pageY (Layout.first_touch e) = Some y ->
  ~ x == 0 -> ~ y == 0 ->
  let item := Layout.delivery_target (Layout.getChildByPos (Layout.children s) x y []) in
  let record := <["touchend" := Layout.stamp e (Layout.first_touch e)]> (Layout.touchMsg s) in
  Layout.eventHandler "touchend" e s =
    (Layout.set_touchMsg record s,
     (item, "touchend") :: (if Layout.isClick record then [(item, "click")] else []))
  /\ snd (@Layout.run_events Layout.sample_window
            [("touchstart", Samples.touch_at 10 10 0);
             ("touchend", Samples.touch_at 12 11 150)]
            (Samples.with_children [Samples.hitA]))
     = [(Layout.Node Samples.hitB, "touchstart");
        (Layout.Node Samples.hitB, "touchend");
        (Layout.Node Samples.hitB, "click")]
  /\ snd (@Layout.run_events Layout.sample_window
            [("touchstart", Samples.touch_at 10 10 0);
             ("touchend", Samples.touch_at 12 11 2000)]
            (Samples.with_children [Samples.hitA]))
     = [(Layout.Node Samples.hitB, "touchstart");
        (Layout.Node Samples.hitB, "touchend")].
Proof.
  intros Hx Hy Hx0 Hy0. cbn zeta.
  split; [|split; vm_compute; reflexivity].
  rewrite (handler_dispatch "touchend" e s x y Hx Hy Hx0 Hy0). reflexivity.
Qed.

Lemma handler_record (name : string) (e : Layout.TouchEvent) (s : Layout.State) :
  Layout.touchMsg (fst (Layout.eventHandler name e s)) = Layout.touchMsg s
  \/ ((name = "touchstart" \/ name = "touchend")
      /\ snd (Layout.eventHandler name e s) <> []
      /\ Layout.touchMsg (fst (Layout.eventHandler name e s))
         = <[name := Layout.stamp e (Layout.first_touch e)]> (Layout.touchMsg s)).
Proof.
  unfold Layout.eventHandler.
  destruct (negb (Js.truthy (Layout.pageX (Layout.first_touch e)))
            || negb (Js.truthy (Layout.pageY (Layout.first_touch e)))); [now left|].
  destruct (Layout.pageX (Layout.first_touch e)) as [x|]; [|now left].
  destruct (Layout.pageY (Layout.first_touch e)) as [y|]; [|now left].
  cbn [fst snd].
  destruct (String.eqb name "touchstart") eqn:Es; cbn [orb].
  - right. apply String.eqb_eq in Es. split; [now left|]. split; [discriminate|].
    reflexivity.
  - destruct (String.eqb name "touchend") eqn:Ee; [|now left].
    right. apply String.eqb_eq in Ee. split; [now right|]. split; [discriminate|].
    reflexivity.
Qed.

Lemma quiet_events_keep_touchstart (evs : list (string * Layout.TouchEvent))
      (s : Layout.State) :
  Layout.touchMsg
    (fst (Layout.run_events
            (List.filter (fun ev => negb (String.eqb (fst ev) "touchstart")) evs) s))
  !! "touchstart"
  = Layout.touchMsg s !! "touchstart".
Proof.
  revert s. induction evs as [|[name e] evs IH]; intros s; [reflexivity|].
  cbn [List.filter fst]. destruct (String.eqb name "touchstart") eqn:Es; cbn [negb].
  - apply IH.
  - cbn [Layout.run_events].
    pose proof (handler_record name e s) as Hrec.
    destruct (Layout.eventHandler name e s) as [s1 out1]. cbn [fst snd] in Hrec.
    specialize (IH s1). destruct (Layout.run_events _ s1) as [s2 out2].
    cbn [fst] in *. rewrite IH.
    destruct Hrec as [E|(_ & _ & E)]; rewrite E; [reflexivity|].
    apply lookup_insert_ne. apply String.eqb_neq in Es. congruence.
Qed.

Lemma run_events_cons (name : string) (e : Layout.TouchEvent)
      (evs : list (string * Layout.TouchEvent)) (s : Layout.State) :
  fst (Layout.run_events ((name, e) :: evs) s)
  = fst (Layout.run_events evs (fst (Layout.eventHandler name e s))).
Proof.
  cbn [Layout.run_events].
  destruct (Layout.eventHandler name e s) as [s1 out1]. cbn [fst].
  now destruct (Layout.run_events evs s1).
Qed.

Lemma run_events_app (evs1 evs2 : list (string * Layout.TouchEvent))
      (s : Layout.State) :
  fst (Layout.run_events (evs1 ++ evs2) s)
  = fst (Layout.run_events evs2 (fst (Layout.run_events evs1 s))).
Proof.
  revert s. induction evs1 as [|[name e] evs1 IH]; intros s; [reflexivity|].
  change (((name, e) :: evs1) ++ evs2) with ((name, e) :: (evs1 ++ evs2)).
  now rewrite !run_events_cons, IH.
Qed.

Lemma touchstart_record (e : Layout.TouchEvent) (s : Layout.State) :
  Layout.touchMsg (fst (Layout.eventHandler "touchstart" e s)) !! "touchstart"
  = if negb (Js.truthy (Layout.pageX (Layout.first_touch e)))
       || negb (Js.truthy (Layout.pageY (Layout.first_touch e)))
    then Layout.touchMsg s !! "touchstart"
    else Some (Layout.stamp e (Layout.first_touch e)).
Proof.
  unfold Layout.eventHandler.
  destruct (Layout.pageX (Layout.first_touch e)) as [x|]; [|reflexivity].
  destruct (Layout.pageY (Layout.first_touch e)) as [y|];
    [|now rewrite orb_true_r].
  destruct (negb (Js.truthy (Some x)) || negb (Js.truthy (Some y))); [reflexivity|].
  cbn. apply lookup_insert_eq.
Qed.

Lemma touchend_keeps_touchstart (e : Layout.TouchEvent) (s : Layout.State) :
  Layout.touchMsg (fst (Layout.eventHandler "touchend" e s)) !! "touchstart"
  = Layout.touchMsg s !! "touchstart".
Proof.
  destruct (handler_record "touchend" e s) as [E|(_ & _ & E)];
    rewrite E; [reflexivity|].
  now apply lookup_insert_ne.
Qed.

(** C6 (amended).  A touchcancel leaves the state, and with it the
    gesture record, as it was and emits no ['click'].  No event of any
    name removes an entry of the record: a handler either leaves the record
    as it was, or it is the handler of a touchstart or touchend that was
    dispatched and overwrites the one entry of its own name.  So after any
    events other than touchstart the recorded touchstart is still the one
    recorded before them, and it is the one in the record on which a later
    touchend decides whether to emit ['click'].  After any events [pre], a
    touchstart [e0], events other than touchstart and a touchend, the
    recorded touchstart is the touch of [e0] when [e0] was dispatched, and
    the one recorded after [pre] when the guard dropped [e0]. *)
Theorem touchcancel_keeps_record (name : string) (e e0 later : Layout.TouchEvent)
        (pre evs : list (string * Layout.TouchEvent)) (s : Layout.State) :
  let quiet := List.filter (fun ev => negb (String.eqb (fst ev) "touchstart")) evs in
  let s' := fst (Layout.run_events quiet s) in
  let ended := Layout.eventHandler "touchend" later s' in
  fst (Layout.eventHandler "touchcancel" e s) = s
  /\ existsb (fun em => String.eqb (snd em) "click")
             (snd (Layout.eventHandler "touchcancel" e s)) = false
  /\ dom (Layout.touchMsg s) ⊆ dom (Layout.touchMsg (fst (Layout.eventHandler name e s)))
  /\ (Layout.touchMsg (fst (Layout.eventHandler name e s)) = Layout.touchMsg s
      \/ ((name = "touchstart" \/ name = "touchend")
          /\ snd (Layout.eventHandler name e s) <> []
          /\ Layout.touchMsg (fst (Layout.eventHandler name e s))
             = <[name := Layout.stamp e (Layout.first_touch e)]> (Layout.touchMsg s)))
  /\ Layout.touchMsg s' !! "touchstart" = Layout.touchMsg s !! "touchstart"
  /\ Layout.touchMsg (fst ended) !! "touchstart" = Layout.touchMsg s !! "touchstart"
  /\ (snd ended = []
      \/ existsb (fun em => String.eqb (snd em) "click") (snd ended)
         = Layout.isClick (Layout.touchMsg (fst ended)))
  /\ Layout.touchMsg
       (fst (Layout.run_events
               (pre ++ ("touchstart", e0) :: quiet ++ [("touchend", later)]) s))
     !! "touchstart"
     = (if negb (Js.truthy (Layout.pageX (Layout.first_touch e0)))
           || negb (Js.truthy (Layout.pageY (Layout.first_touch e0)))
        then Layout.touchMsg (fst (Layout.run_events pre s)) !! "touchstart"
        else Some (Layout.stamp e0 (Layout.first_touch e0))).
Proof.
  cbn zeta.
  pose proof (handler_record name e s) as Hrec.
  split; [|split; [|split; [|split; [exact Hrec|split; [|split; [|split]]]]]];
    [| | | | | |
     rewrite run_events_app, run_events_cons, run_events_app, run_events_cons;
     cbn [Layout.run_events fst];
     rewrite touchend_keeps_touchstart, quiet_events_keep_touchstart;
     apply touchstart_record].
  - unfold Layout.eventHandler.
    destruct (negb (Js.truthy (Layout.pageX (Layout.first_touch e)))
              || negb (Js.truthy (Layout.pageY (Layout.first_touch e)))); [reflexivity|].
    destruct (Layout.pageX (Layout.first_touch e)) as [x|],
             (Layout.pageY (Layout.first_touch e)) as [y|]; reflexivity.
  - unfold Layout.eventHandler.
    destruct (negb (Js.truthy (Layout.pageX (Layout.first_touch e)))
              || negb (Js.truthy (Layout.pageY (Layout.first_touch e)))); [reflexivity|].
    destruct (Layout.pageX (Layout.first_touch e)) as [x|],
             (Layout.pageY (Layout.first_touch e)) as [y|]; reflexivity.
  - destruct Hrec as [E|(_ & _ & E)]; rewrite E; [reflexivity|].
    rewrite dom_insert. apply union_subseteq_r.
  - apply quiet_events_keep_touchstart.
  - rewrite touchend_keeps_touchstart. apply quiet_events_keep_touchstart.
  - unfold Layout.eventHandler.
    destruct (negb (Js.truthy (Layout.pageX (Layout.first_touch later)))
              || negb (Js.truthy (Layout.pageY (Layout.first_touch later))));
      [now left|].
    destruct (Layout.pageX (Layout.first_touch later)) as [x|]; [|now left].
    destruct (Layout.pageY (Layout.first_touch later)) as [y|]; [|now left].
    right. cbn [fst snd String.eqb Ascii.eqb Bool.eqb orb andb].
    destruct (Layout.isClick _); reflexivity.
Qed.

End Clicks.

Lemma click_synthesis_witness :
  Layout.pageX (Layout.first_touch (Samples.touch_at 12 11 150)) = Some 12
  /\ Layout.pageY (Layout.first_touch (Samples.touch_at 12 11 150)) = Some 11
  /\ ~ 12 == 0 /\ ~ 11 == 0
  /\ snd (@Layout.eventHandler Layout.sample_window "touchend"
            (Samples.touch_at 12 11 150) (Samples.after_start 10 10))
     = [(Layout.Node Samples.hitB, "touchend"); (Layout.Node Samples.hitB, "click")].
Proof.
  assert (~ 12 == 0) as H12 by q_nonzero.
  assert (~ 11 == 0) as H11 by q_nonzero.
  split; [reflexivity|]. split; [reflexivity|]. split; [exact H12|]. split; [exact H11|].
  rewrite (proj1 (@click_synthesis Layout.sample_window (Samples.touch_at 12 11 150)
                    (Samples.after_start 10 10) 12 11 eq_refl eq_refl H12 H11)).
  vm_compute. reflexivity.
Defined.

(** C5, as stated, fails: a touchend on the left edge (pageX = 0) within
    the click window of the recorded touchstart emits nothing. *)
Lemma click_dropped_at_edge_cex :
  Layout.touchMsg (Samples.after_start 5 5) !! "touchstart"
  = Some (Layout.mkTouch (Some 5) (Some 5) (Some 0))
  /\ @Layout.isClick Layout.sample_window
       (<["touchend" := Layout.stamp Samples.edge_touch
                          (Layout.first_touch Samples.edge_touch)]>
          (Layout.touchMsg (Samples.after_start 5 5))) = true
  /\ snd (@Layout.eventHandler Layout.sample_window "touchend" Samples.edge_touch
            (Samples.after_start 5 5)) = [].
Proof. repeat split; vm_compute; reflexivity. Qed.

(** C6, as stated, fails: after a touchcancel the record is the one from
    before it and still holds the touchstart; a later touchend decides on a
    record holding that touchstart and, inside the click window, emits
    ['click']. *)
Lemma touchcancel_keeps_gesture_cex :
  Layout.touchMsg Samples.after_cancel = Layout.touchMsg Samples.started
  /\ Layout.touchMsg Samples.after_cancel !! "touchstart"
     = Some (Layout.mkTouch (Some 10) (Some 10) (Some 1000))
  /\ Layout.touchMsg
       (fst (@Layout.eventHandler Layout.sample_window "touchend"
               (Samples.touch_at 12 11 1150) Samples.after_cancel))
     !! "touchstart"
     = Some (Layout.mkTouch (Some 10) (Some 10) (Some 1000))
  /\ snd (@Layout.eventHandler Layout.sample_window "touchend"
            (Samples.touch_at 12 11 1150) Samples.after_cancel)
     = [(Layout.Node Samples.hitB, "touchend"); (Layout.Node Samples.hitB, "click")].
Proof. repeat split; vm_compute; reflexivity. Qed.

(** ** Dirty flags *)

Section DirtyFlags.
Context `{Layout.Collaborators}.

Lemma tick_dirty (s : Layout.State) :
  Layout.isDirty (Layout.TWEEN_update s) = true ->
  Layout.tickerFunc s
  = (Layout.TweenUpdate :: fst (Layout.reflow (Layout.TWEEN_update s)),
     snd (Layout.reflow (Layout.TWEEN_update s))).
Proof.
  intros Hd. unfold Layout.tickerFunc. rewrite Hd.
  now destruct (Layout.reflow (Layout.TWEEN_update s)).
Qed.

Lemma tick_clean (s : Layout.State) :
  Layout.isDirty (Layout.TWEEN_update s) = false ->
  List.filter Layout.is_solver_call (fst (Layout.tickerFunc s)) = [].
Proof.
  intros Hd. unfold Layout.tickerFunc. rewrite Hd.
  destruct (Layout.isNeedRepaint (Layout.TWEEN_update s)); reflexivity.
Qed.

(** C7.  Assigning a new [src] to an image and completing its load raises
    [isNeedRepaint] and leaves [isDirty] and the tree alone (assigning the
    current [src] changes nothing at all); from a state with [isDirty]
    clear, and with an animation step that does not touch the flags, the
    next tick is a repaint pass with no solver call.  A geometry mutation
    raises [isDirty]; the next tick calls the solver exactly once, before
    its canvas operations, and when it comes back [isDirty] is clear and the
    tick after it calls the solver no more. *)
Theorem dirty_flag_law (i : Image.Image) (newValue : string) (loaded : nat)
        (change : list Element -> list Element) (s : Layout.State) :
  (forall t, Layout.isDirty (Layout.TWEEN_update t) = Layout.isDirty t
             /\ Layout.isNeedRepaint (Layout.TWEEN_update t) = Layout.isNeedRepaint t) ->
  newValue <> Image.imgsrc i ->
  Layout.isDirty s = false ->
  let painted := snd (Image.assign_src newValue loaded i s) in
  let resized := Image.geometry_mutation change s in
  (fst (Image.assign_src newValue loaded i s) = Image.mkImage newValue (Some loaded)
   /\ Image.assign_src (Image.imgsrc i) loaded i s = (i, s)
   /\ Layout.isDirty painted = false
   /\ Layout.isNeedRepaint painted = true
   /\ Layout.children painted = Layout.children s
   /\ fst (Layout.tickerFunc painted)
      = [Layout.TweenUpdate; Layout.ClearCanvas; Layout.RepaintChildren]
   /\ List.filter Layout.is_solver_call (fst (Layout.tickerFunc painted)) = [])
  /\ (Layout.isDirty resized = true
      /\ Layout.isNeedRepaint resized = Layout.isNeedRepaint s
      /\ List.filter Layout.is_solver_call (fst (Layout.tickerFunc resized))
         = [Layout.ComputeLayout]
      /\ List.filter (fun op => Layout.is_solver_call op || Layout.is_canvas_op op)
                     (fst (Layout.tickerFunc resized))
         = (match Layout.children (Layout.TWEEN_update resized) with
            | [] => [Layout.ComputeLayout]
            | _ :: _ => [Layout.ComputeLayout; Layout.ClearCanvas; Layout.RenderChildren]
            end)
      /\ match snd (Layout.tickerFunc resized) with
         | Js.Done s' =>
           Layout.isDirty s' = false
           /\ List.filter Layout.is_solver_call (fst (Layout.tickerFunc s')) = []
         | Js.Fail _ => True
         end).
Proof.
  intros Htween Hnew Hclean. cbn zeta.
  assert (String.eqb newValue (Image.imgsrc i) = false) as Hneq
      by (now apply String.eqb_neq).
  unfold Image.assign_src, Image.set_src. rewrite Hneq, String.eqb_refl.
  cbn [fst snd Image.src_loaded Image.deliver_all Image.deliver fold_left
       Image.imgsrc Image.img String.eqb Ascii.eqb Bool.eqb].
  split.
  - split; [reflexivity|]. split; [reflexivity|].
    split; [exact Hclean|]. split; [reflexivity|]. split; [reflexivity|].
    unfold Layout.tickerFunc.
    destruct (Htween (Layout.on_repaint s)) as [Hd Hr]. rewrite Hd, Hr.
    cbn. rewrite Hclean. cbn. split; reflexivity.
  - split; [reflexivity|]. split; [reflexivity|].
    destruct (Htween (Image.geometry_mutation change s)) as [Hd _].
    rewrite (tick_dirty _ Hd). cbn [fst snd].
    rewrite reflow_trace.
    pose proof (reflow_result (Layout.TWEEN_update (Image.geometry_mutation change s)))
      as Hres.
    split; [|split].
    + destruct (Layout.children (Layout.TWEEN_update (Image.geometry_mutation change s)))
        as [|c0 rest]; [reflexivity|].
      destruct (take_renderport_diag (Layout.computeLayout c0)
                  (Layout.set_children (Layout.computeLayout c0 :: rest)
                     (Layout.TWEEN_update (Image.geometry_mutation change s)))) as [E|E];
        rewrite E; reflexivity.
    + destruct (Layout.children (Layout.TWEEN_update (Image.geometry_mutation change s)))
        as [|c0 rest]; [reflexivity|].
      destruct (take_renderport_diag (Layout.computeLayout c0)
                  (Layout.set_children (Layout.computeLayout c0 :: rest)
                     (Layout.TWEEN_update (Image.geometry_mutation change s)))) as [E|E];
        rewrite E; reflexivity.
    + destruct (snd (Layout.reflow (Layout.TWEEN_update
                                      (Image.geometry_mutation change s))))
        as [s'|e]; [|exact I].
      destruct Hres as (Hclear & _). split; [exact Hclear|].
      apply tick_clean. destruct (Htween s') as [Hd' _]. now rewrite Hd'.
Qed.

End DirtyFlags.

Lemma dirty_flag_law_witness :
  (forall t, Layout.isDirty (@Layout.TWEEN_update Layout.idle t) = Layout.isDirty t
             /\ Layout.isNeedRepaint (@Layout.TWEEN_update Layout.idle t)
                = Layout.isNeedRepaint t)
  /\ "b.png" <> Image.imgsrc Samples.picture
  /\ Layout.isDirty (Samples.with_children [Samples.root3]) = false
  /\ fst (@Layout.tickerFunc Layout.idle
            (snd (Image.assign_src "b.png" 7 Samples.picture
                    (Samples.with_children [Samples.root3]))))
     = [Layout.TweenUpdate; Layout.ClearCanvas; Layout.RepaintChildren]
  /\ List.filter Layout.is_solver_call
       (fst (@Layout.tickerFunc Layout.idle
               (Image.geometry_mutation (fun cs => cs)
                  (Samples.with_children [Samples.root3]))))
     = [Layout.ComputeLayout].
Proof.
  assert (forall t, Layout.isDirty (@Layout.TWEEN_update Layout.idle t) = Layout.isDirty t
                    /\ Layout.isNeedRepaint (@Layout.TWEEN_update Layout.idle t)
                       = Layout.isNeedRepaint t) as Hidle
      by (intros t; split; reflexivity).
  assert ("b.png" <> Image.imgsrc Samples.picture) as Hnew
      by (cbn; discriminate).
  pose proof (@dirty_flag_law Layout.idle Samples.picture "b.png" 7
                (fun cs => cs) (Samples.with_children [Samples.root3])
                Hidle Hnew eq_refl) as [Hp Hg].
  split; [exact Hidle|]. split; [exact Hnew|]. split; [reflexivity|].
  split.
  - exact (proj1 (proj2 (proj2 (proj2 (proj2 (proj2 Hp)))))).
  - exact (proj1 (proj2 (proj2 Hg))).
Defined.

(** ** Render-context manager *)

Lemma memb_In (x : nat) (l : list nat) : RCM.memb x l = true <-> In x l.
Proof.
  unfold RCM.memb. rewrite existsb_exists. split.
  - intros (y & Hy & E). apply Nat.eqb_eq in E. now subst.
  - intros Hx. exists x. split; [assumption | apply Nat.eqb_refl].
Qed.

Lemma memb_app (x : nat) (l k : list nat) :
  RCM.memb x (l ++ k) = RCM.memb x l || RCM.memb x k.
Proof. unfold RCM.memb. apply existsb_app. Qed.

Lemma without_In (d l : list nat) (x : nat) :
  In x (RCM.without d l) <-> In x l /\ ~ In x d.
Proof.
  unfold RCM.without. rewrite List.filter_In, negb_true_iff.
  rewrite <- (memb_In x d). destruct (RCM.memb x d).
  - split; [intros [_ E]; discriminate E | intros [_ E]; now elim E].
  - split; intros [Hl _]; (split; [exact Hl|]); [discriminate | reflexivity].
Qed.

Lemma without_without (d1 d2 l : list nat) :
  RCM.without d2 (RCM.without d1 l) = RCM.without (d1 ++ d2) l.
Proof.
  unfold RCM.without. induction l as [|a l IH]; cbn; [reflexivity|].
  rewrite memb_app. destruct (RCM.memb a d1); cbn; [exact IH|].
  destruct (RCM.memb a d2); cbn; now rewrite IH.
Qed.

Lemma without_nil (l : list nat) : RCM.without [] l = l.
Proof.
  unfold RCM.without, RCM.memb.
  induction l as [|a l IH]; cbn; [reflexivity | now f_equal].
Qed.

Lemma NoDup_without (d l : list nat) : List.NoDup l -> List.NoDup (RCM.without d l).
Proof. apply List.NoDup_filter. Qed.

Lemma indexOf_from_found (x : nat) (l : list nat) :
  forall i, In x l ->
    (i <= Js.indexOf_from i l x < i + Z.of_nat (List.length l))%Z
    /\ Js.remove_at (Z.to_nat (Js.indexOf_from i l x - i)) l
       = (fix drop (k : list nat) : list nat :=
            match k with
            | [] => []
            | y :: k' => if Nat.eqb y x then k' else y :: drop k'
            end) l.
Proof.
  induction l as [|y l IH]; intros i Hin; [contradiction|].
  cbn [Js.indexOf_from List.length]. destruct (Nat.eqb y x) eqn:E.
  - split; [lia|]. now replace (i - i)%Z with 0%Z by lia.
  - assert (In x l) as Hl.
    { destruct Hin as [->|Hl]; [|exact Hl]. now rewrite Nat.eqb_refl in E. }
    destruct (IH (i + 1)%Z Hl) as [Hr Hd]. split; [lia|].
    replace (Z.to_nat (Js.indexOf_from (i + 1) l x - i))
      with (S (Z.to_nat (Js.indexOf_from (i + 1) l x - (i + 1)))) by lia.
    cbn [Js.remove_at]. now rewrite Hd.
Qed.

Lemma splice_indexOf (x : nat) (l : list nat) :
  In x l -> List.NoDup l ->
  Js.splice1 (Js.indexOf l x) l = RCM.without [x] l.
Proof.
  intros Hin Hnd. unfold Js.splice1, Js.indexOf.
  destruct (indexOf_from_found x l 0%Z Hin) as [Hr Hd].
  replace (Js.indexOf_from 0 l x <? 0)%Z with false by (symmetry; apply Z.ltb_ge; lia).
  rewrite Z.min_l by lia.
  rewrite Z.sub_0_r in Hd. rewrite Hd. clear Hr Hd Hin.
  unfold RCM.without, RCM.memb.
  induction l as [|y l IH]; [reflexivity|].
  apply List.NoDup_cons_iff in Hnd as [Hy Hnd].
  cbn [List.filter existsb]. rewrite orb_false_r, Nat.eqb_sym.
  destruct (Nat.eqb x y) eqn:E; cbn [negb].
  - apply Nat.eqb_eq in E. subst y.
    symmetry. apply List.forallb_filter_id.
    apply forallb_forall. intros z Hz. cbn. rewrite orb_false_r.
    apply negb_true_iff, Nat.eqb_neq. intros ->. contradiction.
  - now rewrite (IH Hnd).
Qed.

Lemma NoDup_app_parts (l k : list nat) :
  List.NoDup (l ++ k) ->
  List.NoDup l /\ List.NoDup k /\ forall x, In x l -> ~ In x k.
Proof.
  induction l as [|a l IH]; cbn; intros Hnd.
  - split; [constructor|]. split; [exact Hnd|]. intros x [].
  - apply List.NoDup_cons_iff in Hnd as [Ha Hnd].
    destruct (IH Hnd) as (Hl & Hk & Hdis).
    split; [|split; [exact Hk|]].
    + constructor; [|exact Hl]. intros Hin. apply Ha. apply List.in_or_app. now left.
    + intros x [->|Hx]; [|now apply Hdis].
      intros Hin. apply Ha. apply List.in_or_app. now right.
Qed.

Lemma RNode_forest_ind (P : RCM.RNode -> Prop) :
  (forall n, Forall P (RCM.rchildren n) -> P n) -> forall n, P n.
Proof.
  intros step. fix rec 1. intros n. apply step.
  destruct n as [r g cs]. cbn.
  induction cs as [|c cs IHcs]; constructor; [apply rec | exact IHcs].
Qed.

Lemma owned_unfold (sv : option nat) (node : RCM.RNode) :
  RCM.owned sv node
  = RCM.own_glRect sv node ++ flat_map (RCM.owned sv) (RCM.rchildren node).
Proof. destruct node; reflexivity. Qed.

Lemma getChildrenGlRects_unfold (sv : option nat) (node : RCM.RNode)
      (st : list nat * list nat) :
  RCM.getChildrenGlRects sv node st
  = fold_left (fun acc child => RCM.getChildrenGlRects sv child acc)
      (RCM.rchildren node)
      (if negb (RCM.is_scrollview sv node) then
         match RCM.glRect node with
         | Some r => (Js.splice1 (Js.indexOf (fst st) r) (fst st), snd st ++ [r])
         | None => st
         end
       else st).
Proof. destruct node; reflexivity. Qed.

Lemma walk_forest (sv : option nat) (cs : list RCM.RNode) :
  Forall (RCM.walk_moves sv) cs ->
  forall G R,
    List.NoDup G ->
    List.NoDup (flat_map (RCM.owned sv) cs) ->
    incl (flat_map (RCM.owned sv) cs) G ->
    fold_left (fun acc child => RCM.getChildrenGlRects sv child acc) cs (G, R)
    = (RCM.without (flat_map (RCM.owned sv) cs) G, R ++ flat_map (RCM.owned sv) cs).
Proof.
  induction 1 as [|c cs Hc _ IH]; intros G R HG Hnd Hincl; cbn.
  - now rewrite without_nil, app_nil_r.
  - cbn in Hnd, Hincl.
    apply NoDup_app_parts in Hnd as (Hn1 & Hn2 & Hdis).
    apply List.incl_app_inv in Hincl as [Hi1 Hi2].
    rewrite (Hc G R HG Hn1 Hi1).
    rewrite IH.
    + now rewrite without_without, <- app_assoc.
    + now apply NoDup_without.
    + assumption.
    + intros x Hx. apply without_In. split; [now apply Hi2|].
      intros Hx1. now apply (Hdis x).
Qed.

Lemma walk_node (sv : option nat) (node : RCM.RNode) : RCM.walk_moves sv node.
Proof.
  induction node as [node IH] using RNode_forest_ind.
  intros G R HG Hnd Hincl.
  rewrite getChildrenGlRects_unfold. rewrite owned_unfold in *.
  unfold RCM.own_glRect in *. cbn [fst snd].
  destruct (RCM.glRect node) as [r|]; [destruct (RCM.is_scrollview sv node)|];
    cbn [negb app] in *.
  - now apply walk_forest.
  - apply List.NoDup_cons_iff in Hnd as [Hr Hnd].
    assert (In r G) as HrG by (apply Hincl; now left).
    rewrite (splice_indexOf r G HrG HG).
    rewrite (walk_forest sv _ IH).
    + now rewrite without_without, <- app_assoc.
    + now apply NoDup_without.
    + assumption.
    + intros x Hx. apply without_In. split; [apply Hincl; now right|].
      intros [->|[]]. contradiction.
  - destruct (negb (RCM.is_scrollview sv node)); now apply walk_forest.
Qed.

Lemma glRects_of_app (l k : list RCM.RNode) :
  RCM.glRects_of (l ++ k) = RCM.glRects_of l ++ RCM.glRects_of k.
Proof. unfold RCM.glRects_of. apply List.flat_map_app. Qed.

Lemma subtree_unfold (n : RCM.RNode) :
  RCM.subtree n = n :: flat_map RCM.subtree (RCM.rchildren n).
Proof. destruct n; reflexivity. Qed.

Lemma owned_forest_subtrees (r : nat) (cs : list RCM.RNode) :
  Forall (fun c => Forall (fun k => RCM.node_ref k <> r) (RCM.subtree c) ->
                   RCM.owned (Some r) c = RCM.glRects_of (RCM.subtree c)) cs ->
  Forall (fun k => RCM.node_ref k <> r) (flat_map RCM.subtree cs) ->
  flat_map (RCM.owned (Some r)) cs = RCM.glRects_of (flat_map RCM.subtree cs).
Proof.
  induction 1 as [|c cs Hc _ IH]; intros Hall; cbn; [reflexivity|].
  cbn in Hall. apply List.Forall_app in Hall as [H1 H2].
  now rewrite glRects_of_app, (Hc H1), (IH H2).
Qed.

Lemma owned_subtree (r : nat) (n : RCM.RNode) :
  Forall (fun k => RCM.node_ref k <> r) (RCM.subtree n) ->
  RCM.owned (Some r) n = RCM.glRects_of (RCM.subtree n).
Proof.
  induction n as [n IH] using RNode_forest_ind. intros Hall.
  rewrite subtree_unfold in *. rewrite owned_unfold.
  apply List.Forall_cons_iff in Hall as [Hn Hall].
  rewrite (owned_forest_subtrees r _ IH Hall).
  unfold RCM.own_glRect, RCM.is_scrollview.
  apply Nat.eqb_neq in Hn. rewrite Hn. cbn.
  destruct (RCM.glRect n); reflexivity.
Qed.

Lemma owned_scrollview (sv : RCM.RNode) :
  Forall (fun k => RCM.node_ref k <> RCM.node_ref sv) (RCM.descendants sv) ->
  RCM.owned (Some (RCM.node_ref sv)) sv = RCM.glRects_of (RCM.descendants sv).
Proof.
  intros Hall. rewrite owned_unfold. unfold RCM.descendants in *.
  rewrite (owned_forest_subtrees (RCM.node_ref sv) (RCM.rchildren sv)).
  - unfold RCM.own_glRect, RCM.is_scrollview. rewrite Nat.eqb_refl.
    destruct (RCM.glRect sv); reflexivity.
  - apply List.Forall_forall. intros c _. apply owned_subtree.
  - exact Hall.
Qed.

(** C8 (amended).  On the first draw of a manager whose layout declares a
    scrollview, when the [glRect]s of the scrollview's subtree are distinct
    and those of its strict descendants are all in the main collection:
    the [glRect]s of the strict descendants are moved, in pre-order, from
    [glRects] into [scrollGlrects]; the main collection keeps its other
    entries in order, the scrollview's own [glRect] among them; the main
    repaint is issued with that set as exclusion, and so is every later
    draw; the draw itself only operates on the main canvas and leaves the
    scroll canvas, its context and the textures as they were. *)
Theorem scroll_partition (m : RCM.Manager) (lay : RCM.LayoutRef) (sv : RCM.RNode) :
  RCM.hasSetup m = false ->
  RCM.layout m = Some lay ->
  RCM.scrollview lay = Some sv ->
  Forall (fun n => RCM.node_ref n <> RCM.node_ref sv) (RCM.descendants sv) ->
  List.NoDup (RCM.glRects m) ->
  List.NoDup (RCM.glRects_of (RCM.subtree sv)) ->
  incl (RCM.glRects_of (RCM.descendants sv)) (RCM.glRects m) ->
  let D := RCM.glRects_of (RCM.descendants sv) in
  let main := RCM.canvas_id (RCM.canvas m) in
  exists m',
    RCM.draw false m
    = ([RCM.SetupGl main; RCM.Viewport main (RCM.width m) (RCM.height m);
        RCM.ResetGl main; RCM.Repaint main (RCM.glRects m') (Some D)],
       Js.Done m')
    /\ RCM.scrollGlrects m' = Some D
    /\ RCM.glRects m' = RCM.without D (RCM.glRects m)
    /\ (forall r, RCM.glRect sv = Some r -> In r (RCM.glRects m) ->
                  In r (RCM.glRects m'))
    /\ RCM.hasScroll m' = true
    /\ (RCM.scrollCanvas m', RCM.scrollGl m', RCM.glTexture m')
       = (RCM.scrollCanvas m, RCM.scrollGl m, RCM.glTexture m)
    /\ RCM.draw false m'
       = ([RCM.ResetGl main; RCM.Repaint main (RCM.glRects m') (Some D)],
          Js.Done m').
Proof.
  intros Hfirst Hlay Hsv Hrefs HG Hsub Hincl. cbn zeta.
  rewrite subtree_unfold in Hsub. cbn [RCM.glRects_of flat_map] in Hsub.
  fold (RCM.glRects_of (flat_map RCM.subtree (RCM.rchildren sv))) in Hsub.
  fold (RCM.descendants sv) in Hsub.
  apply NoDup_app_parts in Hsub as (_ & HD & Hown).
  unfold RCM.draw. rewrite Hfirst, Hlay, Hsv. cbn [negb orb].
  rewrite (walk_node (Some (RCM.node_ref sv)) sv (RCM.glRects m) []);
    rewrite ?(owned_scrollview sv Hrefs); try assumption.
  cbn [app RCM.canvas_id].
  match goal with
  | |- exists m', (_, Js.Done ?x) = _ /\ _ => exists x
  end.
  split; [reflexivity|].
  cbn [RCM.scrollGlrects RCM.glRects RCM.hasScroll RCM.scrollCanvas RCM.scrollGl
       RCM.glTexture RCM.hasSetup RCM.canvas RCM.canvas_id negb orb].
  split; [reflexivity|]. split; [reflexivity|].
  split; [|split; [reflexivity|split; reflexivity]].
  intros r Hr Hin. apply without_In. split; [exact Hin|].
  apply Hown. rewrite Hr. now left.
Qed.

Lemma scroll_partition_witness :
  RCM.hasSetup (fst Samples.manager0) = false
  /\ RCM.layout (fst Samples.manager0)
     = Some (RCM.mkLayoutRef (Some Samples.scroll_node))
  /\ List.NoDup (RCM.glRects (fst Samples.manager0))
  /\ incl (RCM.glRects_of (RCM.descendants Samples.scroll_node))
          (RCM.glRects (fst Samples.manager0))
  /\ exists m',
       RCM.draw false (fst Samples.manager0)
       = ([RCM.SetupGl 100; RCM.Viewport 100 640 480; RCM.ResetGl 100;
           RCM.Repaint 100 (RCM.glRects m') (Some [2; 3]%nat)], Js.Done m')
       /\ RCM.glRects m' = [0; 1; 4]%nat.
Proof.
  assert (List.NoDup (RCM.glRects (fst Samples.manager0))) as HG.
  { vm_compute. repeat constructor; cbn; intuition discriminate. }
  assert (List.NoDup (RCM.glRects_of (RCM.subtree Samples.scroll_node))) as HS.
  { vm_compute. repeat constructor; cbn; intuition discriminate. }
  assert (incl (RCM.glRects_of (RCM.descendants Samples.scroll_node))
               (RCM.glRects (fst Samples.manager0))) as HI.
  { intros x Hx. vm_compute in Hx. vm_compute. intuition. }
  assert (Forall (fun n => RCM.node_ref n <> RCM.node_ref Samples.scroll_node)
                 (RCM.descendants Samples.scroll_node)) as HR.
  { vm_compute. repeat constructor; discriminate. }
  split; [reflexivity|]. split; [reflexivity|]. split; [exact HG|]. split; [exact HI|].
  destruct (scroll_partition (fst Samples.manager0)
              (RCM.mkLayoutRef (Some Samples.scroll_node)) Samples.scroll_node
              eq_refl eq_refl eq_refl HR HG HS HI)
    as (m' & Hd & _ & Hrects & _).
  exists m'. split; [exact Hd | rewrite Hrects; reflexivity].
Defined.

(** C8, as stated, fails: the first draw moves the scroll set aside but
    does not render it; the trace holds no operation on the scroll canvas
    (7), no context is set up for it and the scrollview's [glRect] (1)
    carries no texture. *)
Lemma scroll_set_not_rendered_cex :
  match RCM.draw false (fst Samples.manager0) with
  | (trace, Js.Done m') =>
    RCM.scrollGlrects m' = Some [2; 3]%nat
    /\ RCM.glRects m' = [0; 1; 4]%nat
    /\ RCM.scrollCanvas m' = Some Samples.used_canvas
    /\ existsb (RCM.touches_canvas 7) trace = false
    /\ RCM.scrollGl m' = None
    /\ RCM.glTexture m' !! 1%nat = None
  | (_, Js.Fail _) => False
  end.
Proof. vm_compute. repeat split; reflexivity. Qed.

Lemma count_surface_app (cid : nat) (l k : list (option RCM.Surface)) :
  RCM.count_surface cid (l ++ k)
  = (RCM.count_surface cid l + RCM.count_surface cid k)%nat.
Proof. unfold RCM.count_surface. now rewrite List.filter_app, List.length_app. Qed.

Lemma acquire_pooled (pool : list (option RCM.Surface)) (c : RCM.Surface) (nc ng : nat) :
  RCM.acquire (RCM.mkGlobal (pool ++ [Some c]) nc ng) = (c, RCM.mkGlobal pool nc ng).
Proof.
  unfold RCM.acquire. cbn [RCM.canvasPool RCM.next_canvas RCM.next_glRect].
  now rewrite List.last_last, List.removelast_last.
Qed.

Lemma acquire_null (pool : list (option RCM.Surface)) (nc ng : nat) :
  RCM.acquire (RCM.mkGlobal (pool ++ [None]) nc ng)
  = (RCM.mkSurface nc 0 0 true, RCM.mkGlobal pool (S nc) ng).
Proof.
  unfold RCM.acquire. cbn [RCM.canvasPool RCM.next_canvas RCM.next_glRect].
  now rewrite List.last_last, List.removelast_last.
Qed.

Lemma draw_keeps_scroll_canvas (needInit : bool) (m : RCM.Manager) :
  match RCM.draw needInit m with
  | (trace, Js.Done m') =>
    RCM.scrollCanvas m' = RCM.scrollCanvas m /\ existsb RCM.is_clear trace = false
  | (trace, Js.Fail _) => existsb RCM.is_clear trace = false
  end.
Proof.
  unfold RCM.draw. destruct (negb (RCM.hasSetup m) || needInit).
  - destruct (RCM.layout m) as [lay|]; [|reflexivity].
    destruct (RCM.scrollview lay) as [sv|].
    + destruct (RCM.getChildrenGlRects _ sv _). cbn. split; reflexivity.
    + cbn. split; reflexivity.
  - cbn. split; reflexivity.
Qed.

Lemma setupScrollGl_clears (m : RCM.Manager) (g : RCM.Global) :
  match RCM.setupScrollGl m g with
  | (trace, Js.Done (m', _)) =>
    existsb RCM.is_clear trace = true
    /\ (exists c, RCM.scrollCanvas m' = Some c /\ RCM.blank c = true)
  | (_, Js.Fail _) => True
  end.
Proof.
  unfold RCM.setupScrollGl.
  destruct (match RCM.scrollCanvas m with
            | Some c => (c, g)
            | None => RCM.acquire g
            end) as [c g1].
  destruct (RCM.layout m) as [lay|]; [|exact I].
  destruct (RCM.scrollview lay) as [sv|]; [|exact I].
  destruct (RCM.glRect sv) as [r|]; [|exact I].
  split; [reflexivity|]. eexists. split; reflexivity.
Qed.

(** C9 (amended).  Releasing a manager that holds the scroll canvas [c]
    pushes [c] on the pool and drops the manager's reference; a second
    release pushes a null entry, not [c] again, so the pool holds [c] once
    more than before however often release is called.  The next manager
    constructed pops [c] exactly as it was released (after a repeated
    release it pops the null entry and creates a canvas instead, [c]
    staying pooled).  Neither the constructor nor [draw] clears the scroll
    canvas; it is resized and cleared when [setupScrollGl] runs. *)
Theorem release_pool (m : RCM.Manager) (g : RCM.Global) (c main : RCM.Surface)
        (sc : Q) :
  RCM.scrollCanvas m = Some c ->
  let once := RCM.release m g in
  let twice := RCM.release (fst once) (snd once) in
  RCM.canvasPool (snd once) = RCM.canvasPool g ++ [Some c]
  /\ RCM.scrollCanvas (fst once) = None
  /\ RCM.canvasPool (snd twice) = RCM.canvasPool g ++ [Some c; None]
  /\ RCM.count_surface (RCM.canvas_id c) (RCM.canvasPool (snd once))
     = S (RCM.count_surface (RCM.canvas_id c) (RCM.canvasPool g))
  /\ RCM.count_surface (RCM.canvas_id c) (RCM.canvasPool (snd twice))
     = S (RCM.count_surface (RCM.canvas_id c) (RCM.canvasPool g))
  /\ RCM.scrollCanvas (fst (RCM.constructor main sc (snd once))) = Some c
  /\ RCM.canvasPool (snd (RCM.constructor main sc (snd once))) = RCM.canvasPool g
  /\ RCM.scrollCanvas (fst (RCM.constructor main sc (snd twice)))
     = Some (RCM.mkSurface (RCM.next_canvas g) 0 0 true)
  /\ RCM.canvasPool (snd (RCM.constructor main sc (snd twice)))
     = RCM.canvasPool g ++ [Some c]
  /\ (forall needInit m0,
        match RCM.draw needInit m0 with
        | (trace, Js.Done m1) =>
          RCM.scrollCanvas m1 = RCM.scrollCanvas m0
          /\ existsb RCM.is_clear trace = false
        | (trace, Js.Fail _) => existsb RCM.is_clear trace = false
        end)
  /\ (forall m0 g0,
        match RCM.setupScrollGl m0 g0 with
        | (trace, Js.Done (m1, _)) =>
          existsb RCM.is_clear trace = true
          /\ (exists c1, RCM.scrollCanvas m1 = Some c1 /\ RCM.blank c1 = true)
        | (_, Js.Fail _) => True
        end).
Proof.
  intros Hc. cbn zeta. unfold RCM.release, RCM.constructor.
  cbn [fst snd RCM.canvasPool RCM.scrollCanvas RCM.set_scrollCanvas
       RCM.next_canvas RCM.next_glRect].
  rewrite Hc.
  split; [reflexivity|]. split; [reflexivity|].
  split; [now rewrite <- app_assoc|].
  split.
  { rewrite count_surface_app. unfold RCM.count_surface at 2. cbn.
    rewrite Nat.eqb_refl. cbn. lia. }
  split.
  { rewrite !count_surface_app. unfold RCM.count_surface at 2 3. cbn.
    rewrite Nat.eqb_refl. cbn. lia. }
  rewrite !acquire_pooled, !acquire_null. cbn [fst snd RCM.scrollCanvas RCM.canvasPool].
  split; [reflexivity|]. split; [reflexivity|].
  split; [reflexivity|]. split; [reflexivity|].
  split; [apply draw_keeps_scroll_canvas | apply setupScrollGl_clears].
Qed.

Lemma release_pool_witness :
  RCM.scrollCanvas Samples.previous_manager = Some Samples.used_canvas
  /\ RCM.canvasPool (snd (RCM.release Samples.previous_manager (RCM.mkGlobal [] 8 0)))
     = [Some Samples.used_canvas]
  /\ RCM.count_surface 7
       (RCM.canvasPool
          (snd (RCM.release
                  (fst (RCM.release Samples.previous_manager (RCM.mkGlobal [] 8 0)))
                  (snd (RCM.release Samples.previous_manager (RCM.mkGlobal [] 8 0))))))
     = 1%nat.
Proof.
  pose proof (release_pool Samples.previous_manager (RCM.mkGlobal [] 8 0)
                Samples.used_canvas Samples.main_canvas 1 eq_refl)
    as (H1 & _ & _ & _ & H5 & _).
  split; [reflexivity|]. split; [exact H1 | exact H5].
Defined.

(** C9, as stated, fails: canvas 7 is released with pixels on it, the
    next manager is constructed from it and draws, and the canvas is still
    not blank; no clear was issued. *)
Lemma pooled_surface_not_cleared_cex :
  snd (RCM.release Samples.previous_manager (RCM.mkGlobal [] 8 0)) = Samples.pool0
  /\ RCM.scrollCanvas (fst Samples.manager0) = Some Samples.used_canvas
  /\ RCM.blank Samples.used_canvas = false
  /\ match RCM.draw false (fst Samples.manager0) with
     | (trace, Js.Done m') =>
       RCM.scrollCanvas m' = Some Samples.used_canvas
       /\ existsb RCM.is_clear trace = false
     | (_, Js.Fail _) => False
     end.
Proof. vm_compute. repeat split; reflexivity. Qed.

(** * Further properties of the container *)

Section ViewPort.
Context `{Layout.ClickConfig}.

(** X1.  [updateViewPort] moves the container's real origin to the
    viewport origin (missing fields count as 0) and the last call wins, but
    it raises no flag and does not touch the nodes' real boxes: an event
    is routed after the call exactly as before it. *)
Theorem updateViewPort_keeps_routing (box box' : Layout.Viewport) (name : string)
        (e : Layout.TouchEvent) (s : Layout.State) :
  Layout.eventHandler name e (Layout.updateViewPort box s)
  = (Layout.updateViewPort box (fst (Layout.eventHandler name e s)),
     snd (Layout.eventHandler name e s))
  /\ Layout.updateViewPort box (Layout.updateViewPort box' s)
     = Layout.updateViewPort box s
  /\ Layout.realLayoutBox (Layout.updateViewPort box s)
     = (Js.or_zero (Layout.vp_x box), Js.or_zero (Layout.vp_y box))
  /\ Layout.children (Layout.updateViewPort box s) = Layout.children s
  /\ Layout.isDirty (Layout.updateViewPort box s) = Layout.isDirty s
  /\ Layout.isNeedRepaint (Layout.updateViewPort box s) = Layout.isNeedRepaint s.
Proof.
  split; [|repeat split].
  unfold Layout.eventHandler.
  destruct (negb (Js.truthy (Layout.pageX (Layout.first_touch e)))
            || negb (Js.truthy (Layout.pageY (Layout.first_touch e)))); [reflexivity|].
  destruct (Layout.pageX (Layout.first_touch e)) as [x|]; [|reflexivity].
  destruct (Layout.pageY (Layout.first_touch e)) as [y|]; [|reflexivity].
  cbn [Layout.updateViewPort Layout.children Layout.touchMsg fst snd].
  destruct (String.eqb name "touchstart" || String.eqb name "touchend"); reflexivity.
Qed.

End ViewPort.

Section Passes.
Context `{Layout.Collaborators}.

(** X2.  When the root element lacks a style width or height, [reflow]
    reports the error once, still runs all its steps and comes back with
    [isDirty] clear.  The render port is not updated: the scale handed to
    the real-layout pass is the viewport width over the width of the render
    port of an earlier reflow, and without an earlier one it is [NaN]. *)
Theorem reflow_without_root_size (s : Layout.State) (c0 : Element)
        (rest : list Element) :
  Layout.children s = c0 :: rest ->
  style_width (Layout.computeLayout c0) = None
  \/ style_height (Layout.computeLayout c0) = None ->
  let scale := Js.quot (Layout.vp_width (Layout.viewport s))
                       (Layout.rp_width (Layout.renderport s)) in
  fst (Layout.reflow s)
  = [Layout.ComputeLayout; Layout.ConsoleError Layout.root_error;
     Layout.LayoutChildren; Layout.UpdateRealLayout; Layout.ClearCanvas;
     Layout.RenderChildren]
  /\ (exists s',
        snd (Layout.reflow s) = Js.Done s'
        /\ Layout.renderport s' = Layout.renderport s
        /\ Layout.isDirty s' = false
        /\ Layout.children s'
           = Layout.updateRealLayout (Layout.realLayoutBox s) scale
               (Layout.layoutChildren (Layout.computeLayout c0 :: rest)))
  /\ match Layout.rp_width (Layout.renderport s) with
     | Some _ => True
     | None => scale = Js.NaN
     end.
Proof.
  intros Hc Hstyle. cbn zeta.
  assert (Layout.take_renderport (Layout.computeLayout c0)
            (Layout.set_children (Layout.computeLayout c0 :: rest) s)
          = (Layout.set_children (Layout.computeLayout c0 :: rest) s,
             [Layout.ConsoleError Layout.root_error])) as Ht.
  { unfold Layout.take_renderport.
    destruct Hstyle as [E|E]; rewrite E; [reflexivity|].
    destruct (style_width (Layout.computeLayout c0)); reflexivity. }
  unfold Layout.reflow. rewrite Hc, Ht. cbn [fst snd app].
  split; [reflexivity|]. split.
  - eexists. split; [reflexivity|]. cbn. repeat split; reflexivity.
  - destruct (Layout.rp_width (Layout.renderport s)); [exact I|].
    unfold Js.quot. now destruct (Layout.vp_width (Layout.viewport s)).
Qed.

(** X3.  With an animation step that leaves the flags alone, two ticks
    that come back settle the container: after the first [isDirty] is
    clear, the second makes no solver call, after it both flags are clear,
    and the third tick only runs the animation step. *)
Theorem ticks_settle (s s1 s2 : Layout.State) :
  (forall t, Layout.isDirty (Layout.TWEEN_update t) = Layout.isDirty t
             /\ Layout.isNeedRepaint (Layout.TWEEN_update t) = Layout.isNeedRepaint t) ->
  snd (Layout.tickerFunc s) = Js.Done s1 ->
  snd (Layout.tickerFunc s1) = Js.Done s2 ->
  Layout.isDirty s1 = false
  /\ List.filter Layout.is_solver_call (fst (Layout.tickerFunc s1)) = []
  /\ Layout.isDirty s2 = false
  /\ Layout.isNeedRepaint s2 = false
  /\ Layout.tickerFunc s2 = ([Layout.TweenUpdate], Js.Done (Layout.TWEEN_update s2)).
Proof.
  intros Htween H1 H2.
  assert (forall a b, snd (Layout.tickerFunc a) = Js.Done b ->
                      Layout.isDirty b = false
                      /\ (Layout.isDirty a = false -> Layout.isNeedRepaint b = false))
    as Hstep.
  { intros a b Hab. unfold Layout.tickerFunc in Hab.
    destruct (Htween a) as [Hd Hr].
    destruct (Layout.isDirty (Layout.TWEEN_update a)) eqn:Ed.
    - pose proof (reflow_result (Layout.TWEEN_update a)) as Hres.
      destruct (Layout.reflow (Layout.TWEEN_update a)) as [t r]. cbn in Hab, Hres.
      subst r. destruct Hres as (Hclear & _). split; [exact Hclear|].
      intros Ha. congruence.
    - destruct (Layout.isNeedRepaint (Layout.TWEEN_update a)) eqn:En;
        cbn in Hab; inversion Hab; subst b; cbn; auto. }
  destruct (Hstep s s1 H1) as [Hd1 _].
  destruct (Hstep s1 s2 H2) as [Hd2 Hr2]. specialize (Hr2 Hd1).
  split; [exact Hd1|]. split.
  { apply tick_clean. destruct (Htween s1) as [E _]. now rewrite E. }
  split; [exact Hd2|]. split; [exact Hr2|].
  unfold Layout.tickerFunc. destruct (Htween s2) as [Ed Er].
  now rewrite Ed, Er, Hd2, Hr2.
Qed.

(** X18.  After [updateViewPort box], the container's real origin is the
    viewport origin.  A [reflow] of a container whose root element declares
    a style width [w] and height [h] then reports no error, takes the
    render port from them and hands the real-layout pass that origin, the
    scale [box.width / w] (not finite when [w] is zero) and the tree the
    absolute pass returned; the origin is the same afterwards. *)
Theorem reflow_after_viewport (box : Layout.Viewport) (s : Layout.State)
        (c0 : Element) (rest : list Element) (w h : Q) :
  Layout.children s = c0 :: rest ->
  style_width (Layout.computeLayout c0) = Some w ->
  style_height (Layout.computeLayout c0) = Some h ->
  let s0 := Layout.updateViewPort box s in
  let origin := (Js.or_zero (Layout.vp_x box), Js.or_zero (Layout.vp_y box)) in
  let scale := Js.quot (Some (Js.or_zero (Layout.vp_width box))) (Some w) in
  Layout.realLayoutBox s0 = origin
  /\ fst (Layout.reflow s0)
     = [Layout.ComputeLayout; Layout.LayoutChildren; Layout.UpdateRealLayout;
        Layout.ClearCanvas; Layout.RenderChildren]
  /\ (exists s',
        snd (Layout.reflow s0) = Js.Done s'
        /\ Layout.renderport s' = Layout.mkRenderport (Some w) (Some h)
        /\ Layout.realLayoutBox s' = origin
        /\ Layout.children s'
           = Layout.updateRealLayout origin scale
               (Layout.layoutChildren (Layout.computeLayout c0 :: rest)))
  /\ (if Qeq_bool w 0 then
        match scale with Js.Fin _ => False | _ => True end
      else scale = Js.Fin (Js.or_zero (Layout.vp_width box) / w)).
Proof.
  intros Hc Hw Hh. cbn zeta.
  split; [reflexivity|].
  unfold Layout.reflow. cbn [Layout.updateViewPort Layout.children].
  rewrite Hc. unfold Layout.take_renderport. rewrite Hw, Hh. cbn [fst snd app].
  split; [reflexivity|]. split.
  - eexists. split; [reflexivity|]. cbn. repeat split; reflexivity.
  - unfold Js.quot. destruct (Qeq_bool w 0); [|reflexivity].
    destruct (Qeq_bool (Js.or_zero (Layout.vp_width box)) 0); [exact I|].
    now destruct (Qle_bool 0 (Js.or_zero (Layout.vp_width box))).
Qed.

End Passes.

Lemma reflow_after_viewport_witness :
  Layout.children Samples2.blind = [Samples.root3]
  /\ fst (@Layout.reflow Layout.idle
            (Layout.updateViewPort Samples.box400 Samples2.blind))
     = [Layout.ComputeLayout; Layout.LayoutChildren; Layout.UpdateRealLayout;
        Layout.ClearCanvas; Layout.RenderChildren]
  /\ Js.quot (Some (Js.or_zero (Layout.vp_width Samples.box400))) (Some 200)
     = Js.Fin (400 / 200).
Proof.
  split; [reflexivity|].
  pose proof (@reflow_after_viewport Layout.idle Samples.box400 Samples2.blind
                Samples.root3 [] 200 200 eq_refl eq_refl eq_refl) as Hv.
  cbn zeta in Hv. destruct Hv as (_ & Htrace & _ & Hscale).
  split; [exact Htrace|exact Hscale].
Defined.

Lemma hits_nonempty (x y : Q) (e : Element) :
  Layout.hits x y e <> [] <-> Layout.inside (Tree.realLayoutBox e) x y = true.
Proof.
  rewrite hits_unfold.
  destruct (Layout.inside (Tree.realLayoutBox e) x y); split; congruence.
Qed.

Lemma flat_map_nil_all {A B : Type} (f : A -> list B) (l : list A) :
  flat_map f l = [] <-> Forall (fun a => f a = []) l.
Proof.
  induction l as [|a l IH]; cbn.
  - split; [constructor | reflexivity].
  - split.
    + intros E. apply app_eq_nil in E as [Ea El]. constructor; [exact Ea | now apply IH].
    + intros Hall. apply List.Forall_cons_iff in Hall as [Ea Hl].
      rewrite Ea. now apply IH.
Qed.

Lemma last_app_nonempty {A : Type} (l k : list A) (d : A) :
  k <> [] -> List.last (l ++ k) d = List.last k d.
Proof.
  intros Hk. induction l as [|a l IH]; [reflexivity|].
  cbn [app]. destruct (l ++ k) eqn:E.
  - apply app_eq_nil in E as [_ E]. contradiction.
  - rewrite <- E in *. cbn. rewrite E. rewrite <- E. exact IH.
Qed.

Lemma last_flat_map {A B : Type} (f : A -> list B) (l : list A) (d : B) :
  flat_map f l <> [] ->
  exists a, In a l /\ f a <> [] /\ List.last (flat_map f l) d = List.last (f a) d.
Proof.
  induction l as [|a l IH]; cbn; [congruence|]. intros Hne.
  destruct (flat_map f l) as [|b k] eqn:E.
  - rewrite app_nil_r in *. exists a. auto.
  - destruct IH as (a' & Hin & Hfa & Hlast); [discriminate|].
    exists a'. split; [now right|]. split; [exact Hfa|].
    rewrite last_app_nonempty by discriminate. exact Hlast.
Qed.

Lemma last_hit_deepest (x y : Q) (e : Element) (d : Element) :
  Layout.inside (Tree.realLayoutBox e) x y = true ->
  let n := List.last (Layout.hits x y e) d in
  Layout.inside (Tree.realLayoutBox n) x y = true
  /\ forallb (fun c => negb (Layout.inside (Tree.realLayoutBox c) x y))
             (Tree.children n) = true.
Proof.
  induction e as [e IH] using Element_forest_ind. intros He. cbn zeta.
  rewrite hits_unfold, He.
  destruct (flat_map (Layout.hits x y) (Tree.children e)) as [|b k] eqn:E.
  - cbn. split; [exact He|].
    apply flat_map_nil_all in E. apply forallb_forall. intros c Hc.
    rewrite List.Forall_forall in E. specialize (E c Hc).
    destruct (Layout.inside (Tree.realLayoutBox c) x y) eqn:Hi; [|reflexivity].
    apply hits_nonempty in Hi. contradiction.
  - change (e :: b :: k) with ([e] ++ b :: k).
    rewrite last_app_nonempty by discriminate. rewrite <- E.
    destruct (last_flat_map (Layout.hits x y) (Tree.children e) d) as (c & Hc & Hne & Hl).
    { rewrite E. discriminate. }
    rewrite Hl. rewrite List.Forall_forall in IH.
    apply (IH c Hc). now apply hits_nonempty.
Qed.

Lemma delivery_target_last (list : list Element) (n : Element) :
  list <> [] ->
  Layout.delivery_target list = Layout.Node (List.last list n).
Proof.
  intros Hne. unfold Layout.delivery_target.
  destruct list as [|a l]; [contradiction|]. clear Hne.
  revert a. induction l as [|b l IH]; intros a; [reflexivity|].
  specialize (IH b). cbn in *. exact IH.
Qed.

(** X4.  The delivery target of a hit test is a deepest hit: when it is a
    node, the point is inside its box and inside the box of none of its
    children; it is the container exactly when the point is inside the box
    of no top-level child. *)
Theorem target_is_deepest_hit (cs : list Element) (x y : Q) :
  match Layout.delivery_target (Layout.getChildByPos cs x y []) with
  | Layout.Node n =>
    Layout.inside (Tree.realLayoutBox n) x y = true
    /\ forallb (fun c => negb (Layout.inside (Tree.realLayoutBox c) x y))
               (Tree.children n) = true
    /\ existsb (fun c => Layout.inside (Tree.realLayoutBox c) x y) cs = true
  | Layout.This =>
    existsb (fun c => Layout.inside (Tree.realLayoutBox c) x y) cs = false
  end.
Proof.
  rewrite getChildByPos_hits. cbn [app].
  destruct (flat_map (Layout.hits x y) cs) as [|b k] eqn:E.
  - cbn. apply flat_map_nil_all in E.
    destruct (existsb _ cs) eqn:Hex; [|reflexivity].
    apply existsb_exists in Hex as (c & Hc & Hi).
    rewrite List.Forall_forall in E. specialize (E c Hc).
    apply hits_nonempty in Hi. contradiction.
  - rewrite (delivery_target_last (b :: k) b) by discriminate. rewrite <- E.
    destruct (last_flat_map (Layout.hits x y) cs b) as (c & Hc & Hne & Hl).
    { rewrite E. discriminate. }
    rewrite Hl. apply hits_nonempty in Hne.
    destruct (last_hit_deepest x y c b Hne) as [Hin Hch].
    split; [exact Hin|]. split; [exact Hch|].
    apply existsb_exists. now exists c.
Qed.

(** X5.  Among the top-level children the last one containing the point
    wins: when [c] contains the point and no child after it does, the
    target is the one found in [c] alone, whatever comes before [c]. *)
Theorem later_sibling_wins (before after : list Element) (c : Element) (x y : Q) :
  Layout.inside (Tree.realLayoutBox c) x y = true ->
  forallb (fun k => negb (Layout.inside (Tree.realLayoutBox k) x y)) after = true ->
  Layout.delivery_target (Layout.getChildByPos (before ++ c :: after) x y [])
  = Layout.delivery_target (Layout.getChildByPos [c] x y []).
Proof.
  intros Hc Hafter. rewrite !getChildByPos_hits. cbn [app flat_map].
  rewrite List.flat_map_app. cbn [flat_map].
  assert (flat_map (Layout.hits x y) after = []) as Ha.
  { apply flat_map_nil_all. apply List.Forall_forall. intros k Hk.
    rewrite forallb_forall in Hafter. specialize (Hafter k Hk).
    apply negb_true_iff in Hafter. rewrite hits_unfold. now rewrite Hafter. }
  rewrite Ha, !app_nil_r.
  assert (Layout.hits x y c <> []) as Hne by now apply hits_nonempty.
  rewrite (delivery_target_last _ c).
  - rewrite (delivery_target_last _ c) by exact Hne.
    now rewrite last_app_nonempty.
  - intros E. apply app_eq_nil in E as [_ E]. contradiction.
Qed.

Section Handler.
Context `{Layout.ClickConfig}.

(** X6.  The event handler only ever writes the gesture record: the tree,
    the ports, the real origin and both dirty flags are as before; a handler
    for a name other than touchstart and touchend leaves the whole state as
    it was.  It emits at most two events, two only for touchend, and a
    ['click'] never comes from a touchstart, touchmove or touchcancel. *)
Theorem handler_frame (name : string) (e : Layout.TouchEvent) (s : Layout.State) :
  let s' := fst (Layout.eventHandler name e s) in
  let out := snd (Layout.eventHandler name e s) in
  Layout.children s' = Layout.children s
  /\ Layout.viewport s' = Layout.viewport s
  /\ Layout.renderport s' = Layout.renderport s
  /\ Layout.realLayoutBox s' = Layout.realLayoutBox s
  /\ Layout.isDirty s' = Layout.isDirty s
  /\ Layout.isNeedRepaint s' = Layout.isNeedRepaint s
  /\ (if String.eqb name "touchstart" || String.eqb name "touchend" then True
      else s' = s)
  /\ (List.length out <= if String.eqb name "touchend" then 2 else 1)%nat
  /\ (if String.eqb name "touchend" || String.eqb name "click" then True
      else existsb (fun em => String.eqb (snd em) "click") out = false).
Proof.
  cbn zeta. unfold Layout.eventHandler.
  destruct (negb (Js.truthy (Layout.pageX (Layout.first_touch e)))
            || negb (Js.truthy (Layout.pageY (Layout.first_touch e)))).
  { cbn. repeat split; try lia; destruct (String.eqb name "touchend"); cbn;
      try destruct (_ || _); try destruct (String.eqb name "click"); auto; lia. }
  destruct (Layout.pageX (Layout.first_touch e)) as [x|],
           (Layout.pageY (Layout.first_touch e)) as [y|];
    try (cbn; repeat split; try lia; destruct (String.eqb name "touchend"); cbn;
         try destruct (_ || _); try destruct (String.eqb name "click"); auto; lia).
  cbn [fst snd].
  destruct (String.eqb name "touchend") eqn:Eend.
  - rewrite orb_true_r. cbn [andb orb].
    destruct (Layout.isClick _); cbn; repeat split; lia.
  - rewrite orb_false_r. cbn [andb orb].
    destruct (String.eqb name "touchstart"); cbn [fst snd List.length existsb];
      repeat split; try lia; destruct (String.eqb name "click") eqn:Ec; auto.
Qed.

(** X7.  A dispatched touchstart or touchend is stored under its own name
    and nothing else in the gesture record changes; the stored touch keeps
    the coordinates of the touch point, and its time stamp is the touch's
    own when it has one (non-zero) and the event's otherwise. *)
Theorem gesture_record (name : string) (e : Layout.TouchEvent) (s : Layout.State)
        (x y : Q) :
  Layout.pageX (Layout.first_touch e) = Some x ->
  Layout.pageY (Layout.first_touch e) = Some y ->
  ~ x == 0 -> ~ y == 0 ->
  String.eqb name "touchstart" || String.eqb name "touchend" = true ->
  let record := Layout.touchMsg (fst (Layout.eventHandler name e s)) in
  let touch := Layout.stamp e (Layout.first_touch e) in
  record !! name = Some touch
  /\ delete name record = delete name (Layout.touchMsg s)
  /\ Layout.pageX touch = Some x
  /\ Layout.pageY touch = Some y
  /\ Layout.timeStamp touch
     = (if Js.truthy (Layout.timeStamp (Layout.first_touch e))
        then Layout.timeStamp (Layout.first_touch e)
        else Layout.timeStamp (Layout.own e)).
Proof.
  intros Hx Hy Hx0 Hy0 Hname. cbn zeta.
  rewrite (handler_dispatch name e s x y Hx Hy Hx0 Hy0). cbn zeta.
  rewrite Hname. cbn [fst Layout.touchMsg Layout.set_touchMsg].
  split; [apply lookup_insert_eq|]. split; [apply delete_insert_eq|].
  unfold Layout.stamp.
  destruct (Js.truthy (Layout.timeStamp (Layout.first_touch e))); cbn; auto.
Qed.

End Handler.

Lemma gesture_record_witness :
  Layout.pageX (Layout.first_touch (Samples.touch_at 12 11 150)) = Some 12
  /\ Layout.pageY (Layout.first_touch (Samples.touch_at 12 11 150)) = Some 11
  /\ ~ 12 == 0 /\ ~ 11 == 0
  /\ Layout.touchMsg
       (fst (@Layout.eventHandler Layout.sample_window "touchend"
               (Samples.touch_at 12 11 150) (Samples.after_start 10 10)))
     !! "touchend"
     = Some (Layout.stamp (Samples.touch_at 12 11 150)
               (Layout.first_touch (Samples.touch_at 12 11 150))).
Proof.
  assert (~ 12 == 0) as H12 by q_nonzero.
  assert (~ 11 == 0) as H11 by q_nonzero.
  split; [reflexivity|]. split; [reflexivity|]. split; [exact H12|]. split; [exact H11|].
  exact (proj1 (@gesture_record Layout.sample_window "touchend"
                  (Samples.touch_at 12 11 150) (Samples.after_start 10 10) 12 11
                  eq_refl eq_refl H12 H11 eq_refl)).
Defined.

(** * Life cycle *)

Section LifeCycle.
Context `{Layout.Collaborators} `{Layout.ClickConfig}.

Lemma fire_table (h : Lifecycle.Host) (slot : Lifecycle.Slot)
      (e : Layout.TouchEvent) (s : Layout.State) :
  Lifecycle.fire_all slot e (Lifecycle.handlers h) s
  = match Lifecycle.handler_name (Lifecycle.handlers h) slot with
    | Some name => Layout.eventHandler name e s
    | None => (s, [])
    end.
Proof.
  destruct h, slot; cbn; try reflexivity;
    match goal with
    | |- context [Layout.eventHandler ?n e s] =>
      destruct (Layout.eventHandler n e s) as [s1 out]
    end; now rewrite app_nil_r.
Qed.

Lemma layout_done (h : Lifecycle.Host) (context : nat) (c c1 : Lifecycle.Container) :
  snd (Lifecycle.layout h context c) = Js.Done c1 ->
  Lifecycle.hasEventHandler c1 = true
  /\ Lifecycle.state c1 = Lifecycle.RENDERED
  /\ Lifecycle.renderContext c1 = Some context
  /\ Layout.isDirty (Lifecycle.core c1) = false
  /\ Lifecycle.bindings c1
     = (if Lifecycle.hasEventHandler c then Lifecycle.bindings c
        else Lifecycle.bindings c ++ Lifecycle.handlers h).
Proof.
  unfold Lifecycle.layout.
  pose proof (reflow_result (Lifecycle.core c)) as Hres.
  destruct (Layout.reflow (Lifecycle.core c)) as [t [s'|err]]; cbn [snd] in *;
    [|discriminate].
  intros E. inversion E; subst c1; clear E.
  unfold Lifecycle.bindEvents. cbn [Lifecycle.hasEventHandler].
  destruct Hres as (Hclear & _).
  destruct (Lifecycle.hasEventHandler c); cbn; auto.
Qed.

Lemma layout_comes_back (h : Lifecycle.Host) (context : nat)
      (c : Lifecycle.Container) :
  Layout.children (Lifecycle.core c) <> [] ->
  exists c1, snd (Lifecycle.layout h context c) = Js.Done c1.
Proof.
  intros Hne. unfold Lifecycle.layout.
  destruct (reflow_comes_back (Lifecycle.core c) Hne) as [s' Hs'].
  destruct (Layout.reflow (Lifecycle.core c)) as [t r]. cbn [snd] in *.
  subst r. eexists. reflexivity.
Qed.

(** X8.  However often [layout] runs, the handlers are registered with the
    host once: after a first and a second [layout] of a container that had
    none, the registrations are the four of the host's table, the state is
    [RENDERED] with the latest context, and a host event on a slot runs
    exactly the one handler of that slot (none for a slot the host does not
    use). *)
Theorem layout_binds_once (h : Lifecycle.Host) (ctx1 ctx2 : nat)
        (c c1 c2 : Lifecycle.Container) (slot : Lifecycle.Slot)
        (e : Layout.TouchEvent) :
  Lifecycle.hasEventHandler c = false ->
  Lifecycle.bindings c = [] ->
  snd (Lifecycle.layout h ctx1 c) = Js.Done c1 ->
  snd (Lifecycle.layout h ctx2 c1) = Js.Done c2 ->
  Lifecycle.bindings c1 = Lifecycle.handlers h
  /\ Lifecycle.bindings c2 = Lifecycle.handlers h
  /\ Lifecycle.state c2 = Lifecycle.RENDERED
  /\ Lifecycle.renderContext c2 = Some ctx2
  /\ Layout.isDirty (Lifecycle.core c2) = false
  /\ Lifecycle.fire slot e c2
     = match Lifecycle.handler_name (Lifecycle.handlers h) slot with
       | Some name =>
         (Lifecycle.set_core (fst (Layout.eventHandler name e (Lifecycle.core c2))) c2,
          snd (Layout.eventHandler name e (Lifecycle.core c2)))
       | None => (c2, [])
       end.
Proof.
  intros Hno Hempty H1 H2.
  destruct (layout_done h ctx1 c c1 H1) as (Hb1 & _ & _ & _ & Hr1).
  destruct (layout_done h ctx2 c1 c2 H2) as (_ & Hst & Hctx & Hd & Hr2).
  rewrite Hno, Hempty in Hr1. cbn in Hr1. rewrite Hb1, Hr1 in Hr2.
  split; [exact Hr1|]. split; [exact Hr2|]. split; [exact Hst|].
  split; [exact Hctx|]. split; [exact Hd|].
  unfold Lifecycle.fire. rewrite Hr2, fire_table.
  destruct (Lifecycle.handler_name (Lifecycle.handlers h) slot) as [name|].
  - now destruct (Layout.eventHandler name e (Lifecycle.core c2)).
  - now destruct c2.
Qed.

Lemma destroyed_app (a b : list Lifecycle.Call) :
  Lifecycle.destroyed (a ++ b) = Lifecycle.destroyed a ++ Lifecycle.destroyed b.
Proof. unfold Lifecycle.destroyed. apply List.flat_map_app. Qed.

Lemma self_destroyed_app (a b : list Lifecycle.Call) :
  Lifecycle.self_destroyed (a ++ b)
  = Lifecycle.self_destroyed a ++ Lifecycle.self_destroyed b.
Proof. unfold Lifecycle.self_destroyed. apply List.flat_map_app. Qed.

Lemma destroyChild_order (hs : Element -> bool) (e : Element) :
  Lifecycle.destroyed (Lifecycle.destroyChild hs e) = Tree.preorder e
  /\ Lifecycle.self_destroyed (Lifecycle.destroyChild hs e)
     = List.filter hs (Lifecycle.postorder e).
Proof.
  induction e as [e IH] using Element_forest_ind.
  destruct e as [i sw sh l lb rb cs]. cbn [Tree.children] in IH.
  cbn [Lifecycle.destroyChild Tree.preorder Lifecycle.postorder Tree.children].
  set (me := mkElement i sw sh l lb rb cs).
  change (Lifecycle.Destroy me :: ?k) with ([Lifecycle.Destroy me] ++ k).
  rewrite !destroyed_app, !self_destroyed_app, List.filter_app.
  assert (Lifecycle.destroyed (flat_map (Lifecycle.destroyChild hs) cs)
          = flat_map Tree.preorder cs
          /\ Lifecycle.self_destroyed (flat_map (Lifecycle.destroyChild hs) cs)
             = List.filter hs (flat_map Lifecycle.postorder cs)) as [Hd Hs].
  { clear me. induction IH as [|c cs [Hc1 Hc2] _ IHcs]; [split; reflexivity|].
    cbn [flat_map]. rewrite destroyed_app, self_destroyed_app, List.filter_app.
    destruct IHcs as [E1 E2]. now rewrite Hc1, Hc2, E1, E2. }
  rewrite Hd, Hs.
  destruct (hs me) eqn:Eh; cbn; rewrite ?Eh, ?app_nil_r; split; reflexivity.
Qed.

Lemma destroyAll_projections (hs : Element -> bool) (cs : list Element) :
  Lifecycle.destroyed (Lifecycle.destroyAll hs cs) = Tree.preorder_forest cs
  /\ Lifecycle.self_destroyed (Lifecycle.destroyAll hs cs)
     = List.filter hs (flat_map Lifecycle.postorder cs).
Proof.
  unfold Lifecycle.destroyAll, Tree.preorder_forest.
  induction cs as [|c cs [IH1 IH2]]; [split; reflexivity|].
  cbn [flat_map]. rewrite destroyed_app, self_destroyed_app, List.filter_app.
  destruct (destroyChild_order hs c) as [Hc1 Hc2].
  now rewrite Hc1, Hc2, IH1, IH2.
Qed.

(** X9.  [destroyAll] calls [destroy] on every node below the tree once,
    parents before children (pre-order), and [destroySelf] on every node
    that defines it once, children before parents (post-order). *)
Theorem destroyAll_order (hs : Element -> bool) (cs : list Element) :
  Lifecycle.destroyed (Lifecycle.destroyAll hs cs) = Tree.preorder_forest cs
  /\ Lifecycle.self_destroyed (Lifecycle.destroyAll hs cs)
     = List.filter hs (flat_map Lifecycle.postorder cs)
  /\ List.length (Lifecycle.destroyAll hs cs)
     = (List.length (Tree.preorder_forest cs)
        + List.length (List.filter hs (flat_map Lifecycle.postorder cs)))%nat.
Proof.
  destruct (destroyAll_projections hs cs) as [H1 H2].
  split; [exact H1|]. split; [exact H2|].
  rewrite <- H1, <- H2.
  generalize (Lifecycle.destroyAll hs cs) as calls.
  induction calls as [|[k|k] calls IHc]; cbn; [reflexivity| |]; rewrite IHc;
    unfold Lifecycle.destroyed, Lifecycle.self_destroyed; lia.
Qed.

(** X10.  [clear] empties the tree and sets the state to [CLEAR] but keeps
    the flags, the gesture record and the registered handlers: afterwards
    every event a handler dispatches goes to the container itself, and a
    [reflow] throws for want of a root element. *)
Theorem after_clear (hs : Element -> bool) (c : Lifecycle.Container)
        (name : string) (e : Layout.TouchEvent) :
  let c' := snd (Lifecycle.clear hs c) in
  Layout.children (Lifecycle.core c') = []
  /\ Lifecycle.state c' = Lifecycle.CLEAR
  /\ Lifecycle.bindings c' = Lifecycle.bindings c
  /\ Lifecycle.hasEventHandler c' = Lifecycle.hasEventHandler c
  /\ Layout.isDirty (Lifecycle.core c') = Layout.isDirty (Lifecycle.core c)
  /\ Layout.isNeedRepaint (Lifecycle.core c')
     = Layout.isNeedRepaint (Lifecycle.core c)
  /\ Layout.touchMsg (Lifecycle.core c') = Layout.touchMsg (Lifecycle.core c)
  /\ forallb (fun em => Lifecycle.is_this (fst em))
             (snd (Layout.eventHandler name e (Lifecycle.core c'))) = true
  /\ Layout.reflow (Lifecycle.core c')
     = ([Layout.ComputeLayout], Js.Fail Js.TypeError)
  /\ Lifecycle.destroyed (fst (fst (Lifecycle.clear hs c)))
     = Tree.preorder_forest (Layout.children (Lifecycle.core c)).
Proof.
  cbn zeta. cbn [Lifecycle.clear fst snd Lifecycle.core Lifecycle.state
                 Lifecycle.bindings Lifecycle.hasEventHandler].
  repeat (split; [reflexivity|]).
  split; [|split; [reflexivity | apply destroyAll_projections]].
  unfold Layout.eventHandler.
  destruct (negb (Js.truthy (Layout.pageX (Layout.first_touch e)))
            || negb (Js.truthy (Layout.pageY (Layout.first_touch e)))); [reflexivity|].
  destruct (Layout.pageX (Layout.first_touch e)) as [x|]; [|reflexivity].
  destruct (Layout.pageY (Layout.first_touch e)) as [y|]; [|reflexivity].
  cbn [Layout.set_children Layout.children Layout.getChildByPos fold_left
       Layout.delivery_target List.last snd].
  destruct (String.eqb name "touchend" && _); reflexivity.
Qed.

End LifeCycle.

(** * The image node *)

Lemma scrollview_above_In (chain : list string) :
  ImageNode.scrollview_above chain = true <-> In "ScrollView" chain.
Proof.
  induction chain as [|t up IH]; cbn; [split; [discriminate | contradiction]|].
  destruct (String.eqb t "ScrollView") eqn:E.
  - apply String.eqb_eq in E. split; auto.
  - apply String.eqb_neq in E. rewrite IH. split; [auto|].
    intros [Ht|Hup]; [congruence | exact Hup].
Qed.

Lemma stack_after_app (d d' : nat) (a b : list ImageNode.CanvasOp) :
  ImageNode.stack_after d a = Some d' ->
  ImageNode.stack_after d (a ++ b) = ImageNode.stack_after d' b.
Proof.
  revert d. induction a as [|op a IH]; intros d; cbn.
  - now intros [= ->].
  - destruct op; try apply IH. destruct d; [discriminate | apply IH].
Qed.

Lemma render_drawn (c i : nat) (arg : option ImageNode.LayoutBox)
      (n : ImageNode.Node) :
  Image.img (ImageNode.image n) = Some i ->
  ImageNode.has_box (ImageNode.layoutBox n) (ImageNode.mkRenderBox c arg) = true ->
  snd (ImageNode.render c arg n) = Js.Done tt
  /\ List.filter ImageNode.is_draw (fst (ImageNode.render c arg n))
     = ImageNode.draw_of i (ImageNode.layoutBox n) (ImageNode.mkRenderBox c arg)
  /\ forall d, ImageNode.stack_after d (fst (ImageNode.render c arg n)) = Some d.
Proof.
  intros Hi Hbox. unfold ImageNode.render, ImageNode.draw_of, ImageNode.has_box in *.
  rewrite Hi. cbn [ImageNode.box ImageNode.ctx] in *.
  destruct (match arg with
            | Some b => Some b
            | None => ImageNode.layoutBox n
            end) as [b|] eqn:Eb.
  - cbn [fst snd]. split; [reflexivity|].
    destruct (ImageNode.borderColor _) as [col|]; [destruct (String.eqb col "")|];
      cbn; auto.
  - destruct arg; [discriminate|]. rewrite Eb in Hbox. discriminate.
Qed.

Lemma render_each_drawn (i : nat) (n : ImageNode.Node) (items : list ImageNode.RenderBox) :
  Image.img (ImageNode.image n) = Some i ->
  forallb (ImageNode.has_box (ImageNode.layoutBox n)) items = true ->
  snd (ImageNode.render_each items n) = Js.Done tt
  /\ List.filter ImageNode.is_draw (fst (ImageNode.render_each items n))
     = flat_map (ImageNode.draw_of i (ImageNode.layoutBox n)) items
  /\ forall d, ImageNode.stack_after d (fst (ImageNode.render_each items n)) = Some d.
Proof.
  intros Hi. induction items as [|[c arg] items IH]; intros Hall.
  - cbn. auto.
  - cbn [forallb] in Hall. apply andb_true_iff in Hall as [Hb Hrest].
    destruct (IH Hrest) as (Hr & Hd & Hs).
    destruct (render_drawn c i arg n Hi Hb) as (Hr1 & Hd1 & Hs1).
    cbn [ImageNode.render_each ImageNode.ctx ImageNode.box flat_map].
    destruct (ImageNode.render c arg n) as [ops r]. cbn [fst snd] in *. subst r.
    destruct (ImageNode.render_each items n) as [ops' r']. cbn [fst snd] in *.
    split; [exact Hr|]. split.
    + now rewrite List.filter_app, Hd1, Hd.
    + intros d. rewrite (stack_after_app d d ops ops' (Hs1 d)). apply Hs.
Qed.

Lemma render_each_no_image (n : ImageNode.Node) (items : list ImageNode.RenderBox) :
  Image.img (ImageNode.image n) = None ->
  ImageNode.render_each items n = ([], Js.Done tt).
Proof.
  intros Hi. induction items as [|item items IH]; [reflexivity|].
  cbn [ImageNode.render_each]. unfold ImageNode.render. rewrite Hi. now rewrite IH.
Qed.

(** X11.  [repaint] of an image node that holds its image and whose
    recorded boxes can all be resolved comes back, draws the image once per
    recorded box, in the order the boxes were recorded and at each box's
    absolute position and size, and leaves the canvas state stack as deep
    as it found it.  Without an image, [repaint] makes no canvas call. *)
Theorem repaint_draws_recorded (n : ImageNode.Node) (i : nat) :
  Image.img (ImageNode.image n) = Some i ->
  forallb (ImageNode.has_box (ImageNode.layoutBox n)) (ImageNode.renderBoxes n) = true ->
  snd (ImageNode.repaint n) = Js.Done tt
  /\ List.filter ImageNode.is_draw (fst (ImageNode.repaint n))
     = flat_map (ImageNode.draw_of i (ImageNode.layoutBox n)) (ImageNode.renderBoxes n)
  /\ (forall d, ImageNode.stack_after d (fst (ImageNode.repaint n)) = Some d)
  /\ ImageNode.repaint (ImageNode.set_img None n) = ([], Js.Done tt).
Proof.
  intros Hi Hall. unfold ImageNode.repaint.
  destruct (render_each_drawn i n (ImageNode.renderBoxes n) Hi Hall) as (Hr & Hd & Hs).
  split; [exact Hr|]. split; [exact Hd|]. split; [exact Hs|].
  now apply render_each_no_image.
Qed.

(** X12.  [insert] appends the box to the recorded ones whatever the load
    does.  With a cached image it draws that box at once, exactly once;
    with a deferred load it draws nothing, and once the node holds the
    image a [repaint] draws the earlier boxes and then the new one. *)
Theorem insert_then_repaint (n : ImageNode.Node) (c i : nat)
        (b : ImageNode.LayoutBox) (returned : option nat) :
  forallb (ImageNode.has_box (ImageNode.layoutBox n)) (ImageNode.renderBoxes n) = true ->
  let cached := ImageNode.insert c (Some b) (ImageNode.FromCache i returned) n in
  let deferred := ImageNode.insert c (Some b) (ImageNode.Deferred (Some i)) n in
  let drawn := ImageNode.DrawImage c i (ImageNode.absoluteX b) (ImageNode.absoluteY b)
                                   (ImageNode.width b) (ImageNode.height b) in
  ImageNode.renderBoxes (fst cached)
  = ImageNode.renderBoxes n ++ [ImageNode.mkRenderBox c (Some b)]
  /\ ImageNode.renderBoxes (fst deferred) = ImageNode.renderBoxes (fst cached)
  /\ List.filter ImageNode.is_draw (fst (snd cached)) = [drawn]
  /\ Image.img (ImageNode.image (fst cached)) = returned
  /\ snd deferred = ([], Js.Done tt)
  /\ snd (ImageNode.repaint (fst deferred)) = Js.Done tt
  /\ List.filter ImageNode.is_draw (fst (ImageNode.repaint (fst deferred)))
     = flat_map (ImageNode.draw_of i (ImageNode.layoutBox n)) (ImageNode.renderBoxes n)
       ++ [drawn].
Proof.
  intros Hall. cbn zeta.
  set (n1 := ImageNode.mkNode (ImageNode.image n) (ImageNode.style n)
               (ImageNode.layoutBox n)
               (ImageNode.renderBoxes n ++ [ImageNode.mkRenderBox c (Some b)])
               (ImageNode.isDestroyed n) (ImageNode.has_src n) (ImageNode.ancestors n)).
  assert (forall v, Image.img (ImageNode.image (ImageNode.set_img (Some v) n1)) = Some v)
    as Himg by reflexivity.
  destruct (render_drawn c i (Some b) (ImageNode.set_img (Some i) n1) (Himg i) eq_refl)
    as (Hr & Hd & _).
  unfold ImageNode.insert. fold n1.
  destruct (ImageNode.render c (Some b) (ImageNode.set_img (Some i) n1)) as [ops r].
  cbn [fst snd] in *. subst r. cbn [fst snd].
  split; [reflexivity|]. split; [reflexivity|]. split; [exact Hd|].
  split; [reflexivity|]. split; [reflexivity|].
  assert (forallb (ImageNode.has_box (ImageNode.layoutBox (ImageNode.set_img (Some i) n1)))
                  (ImageNode.renderBoxes (ImageNode.set_img (Some i) n1)) = true) as Hall1.
  { cbn. rewrite forallb_app, Hall. reflexivity. }
  destruct (render_each_drawn i (ImageNode.set_img (Some i) n1)
              (ImageNode.renderBoxes (ImageNode.set_img (Some i) n1)) (Himg i) Hall1)
    as (Hr2 & Hd2 & _).
  unfold ImageNode.repaint.
  split; [exact Hr2|]. rewrite Hd2. cbn. now rewrite List.flat_map_app.
Qed.

(** X13.  When a deferred load of [insert] is done, one event is emitted
    if the node still holds an image: ['image__render__done'] exactly when
    some node above it is a ScrollView, ['one__image__render__done']
    otherwise.  After [destroySelf] the completion emits nothing, [repaint]
    makes no canvas call, and assigning [src] starts no load. *)
Theorem destroyed_image_is_silent (n : ImageNode.Node) (newValue : string) :
  (match Image.img (ImageNode.image n) with
   | Some _ => exists name, ImageNode.insert_loaded n = [name]
                            /\ (name = "image__render__done"
                                <-> In "ScrollView" (ImageNode.ancestors n))
                            /\ (name = "one__image__render__done"
                                <-> ~ In "ScrollView" (ImageNode.ancestors n))
   | None => ImageNode.insert_loaded n = []
   end)
  /\ ImageNode.insert_loaded (ImageNode.destroySelf n) = []
  /\ ImageNode.repaint (ImageNode.destroySelf n) = ([], Js.Done tt)
  /\ ImageNode.assign newValue (ImageNode.destroySelf n)
     = (ImageNode.destroySelf n, None)
  /\ ImageNode.isDestroyed (ImageNode.destroySelf n) = true.
Proof.
  split; [|split; [reflexivity|split; [|split; reflexivity]]].
  - unfold ImageNode.insert_loaded, ImageNode.isScrollViewChild.
    destruct (Image.img (ImageNode.image n)); [|reflexivity].
    pose proof (scrollview_above_In (ImageNode.ancestors n)) as Hiff.
    destruct (ImageNode.scrollview_above (ImageNode.ancestors n)); eexists;
      (split; [reflexivity|]); split; split; intros Hx;
        try reflexivity; try discriminate Hx.
    + now apply Hiff.
    + destruct Hiff as [Hfw _]. elim Hx. now apply Hfw.
    + destruct Hiff as [_ Hbw]. specialize (Hbw Hx). discriminate Hbw.
    + intros Hin. destruct Hiff as [_ Hbw]. specialize (Hbw Hin). discriminate Hbw.
  - unfold ImageNode.repaint. now apply render_each_no_image.
Qed.

(** * Further properties of the render-context manager *)

Lemma remove_at_sublist {A : Type} (n : nat) (l : list A) :
  Js.remove_at n l `sublist_of` l.
Proof.
  revert n. induction l as [|a l IH]; intros n; [destruct n; constructor|].
  destruct n; cbn.
  - now apply sublist_cons.
  - now apply sublist_skip.
Qed.

Lemma walk_sublist (sv : option nat) (node : RCM.RNode) :
  forall st,
    fst (RCM.getChildrenGlRects sv node st) `sublist_of` fst st
    /\ snd (RCM.getChildrenGlRects sv node st) = snd st ++ RCM.owned sv node.
Proof.
  induction node as [node IH] using RNode_forest_ind. intros st.
  rewrite getChildrenGlRects_unfold, owned_unfold.
  assert (forall cs, Forall (fun c => forall st0,
                       fst (RCM.getChildrenGlRects sv c st0) `sublist_of` fst st0
                       /\ snd (RCM.getChildrenGlRects sv c st0)
                          = snd st0 ++ RCM.owned sv c) cs ->
            forall st1,
              fst (fold_left (fun acc child => RCM.getChildrenGlRects sv child acc) cs st1)
                `sublist_of` fst st1
              /\ snd (fold_left (fun acc child => RCM.getChildrenGlRects sv child acc) cs st1)
                 = snd st1 ++ flat_map (RCM.owned sv) cs) as Hfold.
  { induction 1 as [|c cs Hc _ IHcs]; intros st1; cbn.
    - split; [reflexivity | now rewrite app_nil_r].
    - destruct (IHcs (RCM.getChildrenGlRects sv c st1)) as [H1 H2].
      destruct (Hc st1) as [H3 H4]. split.
      + now transitivity (fst (RCM.getChildrenGlRects sv c st1)).
      + now rewrite H2, H4, <- app_assoc. }
  destruct (Hfold _ IH
              (if negb (RCM.is_scrollview sv node)
               then match RCM.glRect node with
                    | Some r => (Js.splice1 (Js.indexOf (fst st) r) (fst st), snd st ++ [r])
                    | None => st
                    end
               else st)) as [H1 H2].
  rewrite H2. unfold RCM.own_glRect.
  destruct (RCM.is_scrollview sv node), (RCM.glRect node) as [r|]; cbn [negb fst snd] in *.
  - split; [exact H1 | reflexivity].
  - split; [exact H1 | reflexivity].
  - split; [|now rewrite <- app_assoc].
    etransitivity; [exact H1|]. unfold Js.splice1. apply remove_at_sublist.
  - split; [exact H1 | reflexivity].
Qed.

(** X14.  [draw] never adds a primitive to the main collection and never
    reorders it: what is left after a draw is a sub-sequence of what was
    there.  A draw that comes back leaves the manager set up, and from then
    on [draw(false)] changes nothing and issues just the reset and the
    repaint of the main canvas.  [draw] throws only when it has to set up
    and no layout is attached. *)
Theorem draw_only_removes (needInit : bool) (m : RCM.Manager) :
  match RCM.draw needInit m with
  | (_, Js.Done m') =>
    RCM.glRects m' `sublist_of` RCM.glRects m
    /\ RCM.hasSetup m' = true
    /\ RCM.canvas_id (RCM.canvas m') = RCM.canvas_id (RCM.canvas m)
    /\ RCM.draw false m'
       = ([RCM.ResetGl (RCM.canvas_id (RCM.canvas m));
           RCM.Repaint (RCM.canvas_id (RCM.canvas m)) (RCM.glRects m')
                       (RCM.scrollGlrects m')],
          Js.Done m')
  | (_, Js.Fail e) =>
    e = Js.TypeError /\ RCM.layout m = None
    /\ negb (RCM.hasSetup m) || needInit = true
  end.
Proof.
  unfold RCM.draw at 1.
  destruct (negb (RCM.hasSetup m) || needInit) eqn:Einit.
  - destruct (RCM.layout m) as [lay|]; [|auto].
    destruct (RCM.scrollview lay) as [sv|].
    + pose proof (walk_sublist (Some (RCM.node_ref sv)) sv (RCM.glRects m, [])) as [Hs _].
      destruct (RCM.getChildrenGlRects _ sv _) as [rects res]. cbn [fst] in Hs.
      cbn. auto.
    + cbn. auto.
  - apply orb_false_iff in Einit as [Hset _]. apply negb_false_iff in Hset.
    split; [reflexivity|]. split; [exact Hset|]. split; [reflexivity|].
    unfold RCM.draw. now rewrite Hset.
Qed.

Lemma indexOf_from_absent (x : nat) (l : list nat) :
  forall i, ~ In x l -> Js.indexOf_from i l x = (-1)%Z.
Proof.
  induction l as [|y l IH]; intros i Hx; [reflexivity|].
  cbn. destruct (Nat.eqb y x) eqn:E.
  - apply Nat.eqb_eq in E. elim Hx. now left.
  - apply IH. intros Hin. apply Hx. now right.
Qed.

Lemma remove_at_last {A : Type} (l : list A) :
  Js.remove_at (List.length l - 1) l = firstn (List.length l - 1) l.
Proof.
  induction l as [|a l IH]; [reflexivity|].
  destruct l as [|b l]; [reflexivity|].
  cbn [List.length] in *.
  replace (S (S (List.length l)) - 1)%nat with (S (S (List.length l) - 1)) by lia.
  cbn [Js.remove_at firstn]. now rewrite IH.
Qed.

Lemma splice_absent (x : nat) (l : list nat) :
  ~ In x l ->
  Js.splice1 (Js.indexOf l x) l = firstn (List.length l - 1) l.
Proof.
  intros Hx. unfold Js.splice1, Js.indexOf. rewrite (indexOf_from_absent x l 0%Z Hx).
  cbn [Z.ltb Z.compare].
  replace (Z.to_nat (Z.max (Z.of_nat (List.length l) + -1) 0))
    with (List.length l - 1)%nat by lia.
  apply remove_at_last.
Qed.

Lemma firstn_firstn_sub {A : Type} (l : list A) (a b : nat) :
  firstn (List.length (firstn (List.length l - a) l) - b)
         (firstn (List.length l - a) l)
  = firstn (List.length l - (a + b)) l.
Proof.
  rewrite List.length_firstn, List.firstn_firstn. f_equal. lia.
Qed.

Lemma In_firstn {A : Type} (x : A) (l : list A) :
  forall k, In x (firstn k l) -> In x l.
Proof.
  induction l as [|a l IH]; intros [|k]; cbn; try contradiction.
  intros [E|Hin]; [now left | right; now apply (IH k)].
Qed.

Lemma absent_firstn (G D : list nat) (k : nat) :
  Forall (fun r => ~ In r G) D -> Forall (fun r => ~ In r (firstn k G)) D.
Proof.
  intros Hall. eapply List.Forall_impl; [|exact Hall].
  intros r Hr Hin. apply Hr. now apply (In_firstn r G k).
Qed.

Lemma walk_absent (sv : option nat) (node : RCM.RNode) :
  forall G R,
    Forall (fun r => ~ In r G) (RCM.owned sv node) ->
    RCM.getChildrenGlRects sv node (G, R)
    = (firstn (List.length G - List.length (RCM.owned sv node)) G,
       R ++ RCM.owned sv node).
Proof.
  induction node as [node IH] using RNode_forest_ind.
  assert (forall cs, Forall (fun c => forall G R,
                       Forall (fun r => ~ In r G) (RCM.owned sv c) ->
                       RCM.getChildrenGlRects sv c (G, R)
                       = (firstn (List.length G - List.length (RCM.owned sv c)) G,
                          R ++ RCM.owned sv c)) cs ->
            forall G R,
              Forall (fun r => ~ In r G) (flat_map (RCM.owned sv) cs) ->
              fold_left (fun acc child => RCM.getChildrenGlRects sv child acc) cs (G, R)
              = (firstn (List.length G - List.length (flat_map (RCM.owned sv) cs)) G,
                 R ++ flat_map (RCM.owned sv) cs)) as Hfold.
  { induction 1 as [|c cs Hc _ IHcs]; intros G R Hall; cbn.
    - now rewrite Nat.sub_0_r, List.firstn_all, app_nil_r.
    - cbn in Hall. apply List.Forall_app in Hall as [H1 H2].
      rewrite (Hc G R H1), IHcs by now apply absent_firstn.
      now rewrite firstn_firstn_sub, List.length_app, <- app_assoc. }
  intros G R Hall. rewrite getChildrenGlRects_unfold. rewrite owned_unfold in *.
  unfold RCM.own_glRect in *. cbn [fst snd].
  destruct (RCM.is_scrollview sv node), (RCM.glRect node) as [r|]; cbn [negb app] in *;
    try (now apply (Hfold _ IH)).
  apply List.Forall_cons_iff in Hall as [Hr Hall].
  rewrite (splice_absent r G Hr), (Hfold _ IH) by now apply absent_firstn.
  rewrite <- app_assoc. cbn [app List.length]. f_equal.
  replace (List.length G - 1)%nat with (List.length G - 1 - 0)%nat at 2 by lia.
  rewrite List.length_firstn, List.firstn_firstn. f_equal. lia.
Qed.

(** X15.  A set-up draw of a manager whose main collection holds none of
    the scroll subtree's [glRect]s (the state every scrolling draw leaves
    behind) still gathers the same scroll set, but each missing [glRect]
    makes [splice] take the last primitive off the main collection: as many
    trailing primitives are dropped as the scroll set has members. *)
Theorem redraw_init_strips (m : RCM.Manager) (lay : RCM.LayoutRef) (sv : RCM.RNode) :
  RCM.layout m = Some lay ->
  RCM.scrollview lay = Some sv ->
  Forall (fun n => RCM.node_ref n <> RCM.node_ref sv) (RCM.descendants sv) ->
  Forall (fun r => ~ In r (RCM.glRects m)) (RCM.glRects_of (RCM.descendants sv)) ->
  let D := RCM.glRects_of (RCM.descendants sv) in
  exists trace m',
    RCM.draw true m = (trace, Js.Done m')
    /\ RCM.scrollGlrects m' = Some D
    /\ RCM.glRects m'
       = firstn (List.length (RCM.glRects m) - List.length D) (RCM.glRects m)
    /\ List.length (RCM.glRects m')
       = (List.length (RCM.glRects m) - List.length D)%nat.
Proof.
  intros Hlay Hsv Hrefs Habs. cbn zeta.
  unfold RCM.draw. rewrite orb_true_r, Hlay, Hsv.
  rewrite <- (owned_scrollview sv Hrefs) in *.
  rewrite (walk_absent (Some (RCM.node_ref sv)) sv (RCM.glRects m) [] Habs).
  cbn [app]. eexists. eexists. split; [reflexivity|].
  cbn [RCM.scrollGlrects RCM.glRects].
  split; [reflexivity|]. split; [reflexivity|].
  rewrite List.length_firstn. lia.
Qed.

(** X16.  The canvas pool is a stack: after two managers release their
    scroll canvases, the next two managers constructed receive them in
    reverse order, no canvas is created, and the pool is back to what it
    was.  A manager constructed over an empty pool gets a newly created
    canvas. *)
Theorem pool_is_lifo (m1 m2 : RCM.Manager) (g : RCM.Global)
        (c1 c2 main : RCM.Surface) (sc : Q) :
  RCM.scrollCanvas m1 = Some c1 ->
  RCM.scrollCanvas m2 = Some c2 ->
  let released := snd (RCM.release m2 (snd (RCM.release m1 g))) in
  let first := RCM.constructor main sc released in
  let second := RCM.constructor main sc (snd first) in
  RCM.scrollCanvas (fst first) = Some c2
  /\ RCM.scrollCanvas (fst second) = Some c1
  /\ RCM.canvasPool (snd second) = RCM.canvasPool g
  /\ RCM.next_canvas (snd second) = RCM.next_canvas g
  /\ RCM.scrollCanvas
       (fst (RCM.constructor main sc
               (RCM.mkGlobal [] (RCM.next_canvas g) (RCM.next_glRect g))))
     = Some (RCM.mkSurface (RCM.next_canvas g) 0 0 true).
Proof.
  intros H1 H2. cbn zeta. unfold RCM.release, RCM.constructor.
  cbn [fst snd RCM.canvasPool RCM.next_canvas RCM.next_glRect].
  rewrite H1, H2, acquire_pooled. cbn [fst snd].
  rewrite acquire_pooled. cbn. repeat split; reflexivity.
Qed.

(** X17.  [setupScrollGl] on a manager that has released its scroll canvas
    takes the canvas back from the pool, which is then as before the
    release; it sizes the canvas to the manager's width and height, clears
    it, keeps its context, and attaches the canvas as the texture of the
    scrollview's [glRect]. *)
Theorem setup_after_release (m : RCM.Manager) (g : RCM.Global) (c : RCM.Surface)
        (lay : RCM.LayoutRef) (sv : RCM.RNode) (r : nat) :
  RCM.scrollCanvas m = Some c ->
  RCM.layout m = Some lay ->
  RCM.scrollview lay = Some sv ->
  RCM.glRect sv = Some r ->
  exists m' g',
    RCM.setupScrollGl (fst (RCM.release m g)) (snd (RCM.release m g))
    = ([RCM.SetupGl (RCM.canvas_id c);
        RCM.Viewport (RCM.canvas_id c) (RCM.width m) (RCM.height m);
        RCM.Clear (RCM.canvas_id c)],
       Js.Done (m', g'))
    /\ RCM.canvasPool g' = RCM.canvasPool g
    /\ RCM.next_canvas g' = RCM.next_canvas g
    /\ RCM.scrollCanvas m'
       = Some (RCM.mkSurface (RCM.canvas_id c) (RCM.width m) (RCM.height m) true)
    /\ RCM.scrollGl m' = Some (RCM.canvas_id c)
    /\ RCM.glTexture m' !! r = Some (RCM.canvas_id c)
    /\ RCM.glRects m' = RCM.glRects m.
Proof.
  intros Hc Hlay Hsv Hr. unfold RCM.release, RCM.setupScrollGl.
  cbn [fst snd RCM.set_scrollCanvas RCM.scrollCanvas RCM.layout RCM.width RCM.height
       RCM.canvasPool RCM.next_canvas RCM.next_glRect].
  rewrite Hc, acquire_pooled, Hlay, Hsv, Hr.
  eexists. eexists. split; [reflexivity|]. cbn.
  repeat split; try reflexivity. apply lookup_insert_eq.
Qed.

(** * Instances *)

Lemma reflow_without_root_size_witness :
  Layout.children Samples.board = [Samples.hitA]
  /\ (style_width (@Layout.computeLayout Layout.idle Samples.hitA) = None
      \/ style_height (@Layout.computeLayout Layout.idle Samples.hitA) = None)
  /\ fst (@Layout.reflow Layout.idle Samples.board)
     = [Layout.ComputeLayout; Layout.ConsoleError Layout.root_error;
        Layout.LayoutChildren; Layout.UpdateRealLayout; Layout.ClearCanvas;
        Layout.RenderChildren]
  /\ Js.quot (Layout.vp_width (Layout.viewport Samples.board))
             (Layout.rp_width (Layout.renderport Samples.board)) = Js.NaN.
Proof.
  assert (style_width (@Layout.computeLayout Layout.idle Samples.hitA) = None
          \/ style_height (@Layout.computeLayout Layout.idle Samples.hitA) = None)
    as Hs by (left; reflexivity).
  pose proof (@reflow_without_root_size Layout.idle Samples.board
                Samples.hitA [] eq_refl Hs) as (Ht & _ & Hnan).
  split; [reflexivity|]. split; [exact Hs|]. split; [exact Ht | exact Hnan].
Defined.

Lemma ticks_settle_witness :
  (forall t, Layout.isDirty (@Layout.TWEEN_update Layout.idle t) = Layout.isDirty t
             /\ Layout.isNeedRepaint (@Layout.TWEEN_update Layout.idle t)
                = Layout.isNeedRepaint t)
  /\ Js.quot (Layout.vp_width (Layout.viewport Samples2.blind)) (Some 200) = Js.NaN
  /\ snd (@Layout.tickerFunc Layout.idle Samples2.blind) = Js.Done Samples2.tick1
  /\ snd (@Layout.tickerFunc Layout.idle Samples2.tick1) = Js.Done Samples2.tick2
  /\ @Layout.tickerFunc Layout.idle Samples2.tick2
     = ([Layout.TweenUpdate], Js.Done Samples2.tick2).
Proof.
  assert (forall t, Layout.isDirty (@Layout.TWEEN_update Layout.idle t) = Layout.isDirty t
                    /\ Layout.isNeedRepaint (@Layout.TWEEN_update Layout.idle t)
                       = Layout.isNeedRepaint t) as Hidle
      by (intros t; split; reflexivity).
  assert (snd (@Layout.tickerFunc Layout.idle Samples2.blind) = Js.Done Samples2.tick1)
    as H1 by (vm_compute; reflexivity).
  assert (snd (@Layout.tickerFunc Layout.idle Samples2.tick1) = Js.Done Samples2.tick2)
    as H2 by (vm_compute; reflexivity).
  split; [exact Hidle|]. split; [reflexivity|]. split; [exact H1|]. split; [exact H2|].
  exact (proj2 (proj2 (proj2 (proj2
    (@ticks_settle Layout.idle Samples2.blind Samples2.tick1 Samples2.tick2
       Hidle H1 H2))))).
Defined.

Lemma later_sibling_wins_witness :
  Layout.inside (Tree.realLayoutBox Samples.hitA) 15 15 = true
  /\ forallb (fun k => negb (Layout.inside (Tree.realLayoutBox k) 15 15))
             [Samples.farB] = true
  /\ Layout.delivery_target
       (Layout.getChildByPos ([Samples.nearA] ++ Samples.hitA :: [Samples.farB]) 15 15 [])
     = Layout.delivery_target (Layout.getChildByPos [Samples.hitA] 15 15 []).
Proof.
  split; [vm_compute; reflexivity|]. split; [vm_compute; reflexivity|].
  apply (later_sibling_wins [Samples.nearA] [Samples.farB] Samples.hitA 15 15);
    vm_compute; reflexivity.
Defined.

Lemma layout_binds_once_witness :
  Layout.hasViewPortSet (Lifecycle.core Samples2.container0) = false
  /\ Lifecycle.hasEventHandler Samples2.container0 = false
  /\ Lifecycle.bindings Samples2.container0 = []
  /\ snd (@Lifecycle.layout Layout.idle Lifecycle.Env 1 Samples2.container0)
     = Js.Done Samples2.laid1
  /\ snd (@Lifecycle.layout Layout.idle Lifecycle.Env 2 Samples2.laid1)
     = Js.Done Samples2.laid2
  /\ Lifecycle.bindings Samples2.laid2 = Lifecycle.handlers Lifecycle.Env.
Proof.
  assert (snd (@Lifecycle.layout Layout.idle Lifecycle.Env 1 Samples2.container0)
          = Js.Done Samples2.laid1) as H1 by (vm_compute; reflexivity).
  assert (snd (@Lifecycle.layout Layout.idle Lifecycle.Env 2 Samples2.laid1)
          = Js.Done Samples2.laid2) as H2 by (vm_compute; reflexivity).
  split; [reflexivity|].
  split; [reflexivity|]. split; [reflexivity|]. split; [exact H1|]. split; [exact H2|].
  exact (proj1 (proj2
    (@layout_binds_once Layout.idle Layout.sample_window Lifecycle.Env 1 2
       Samples2.container0 Samples2.laid1 Samples2.laid2 Lifecycle.onTouchEnd
       (Samples.touch_at 15 15 0) eq_refl eq_refl H1 H2))).
Defined.

Lemma repaint_draws_recorded_witness :
  Image.img (ImageNode.image Samples2.pic_node) = Some 7%nat
  /\ forallb (ImageNode.has_box (ImageNode.layoutBox Samples2.pic_node))
             (ImageNode.renderBoxes Samples2.pic_node) = true
  /\ List.filter ImageNode.is_draw (fst (ImageNode.repaint Samples2.pic_node))
     = [ImageNode.DrawImage 1 7 10 20 90 90; ImageNode.DrawImage 1 7 0 0 50 50].
Proof.
  split; [reflexivity|]. split; [reflexivity|].
  exact (proj1 (proj2 (repaint_draws_recorded Samples2.pic_node 7 eq_refl eq_refl))).
Defined.

Lemma insert_then_repaint_witness :
  forallb (ImageNode.has_box (ImageNode.layoutBox Samples2.pic_node))
          (ImageNode.renderBoxes Samples2.pic_node) = true
  /\ ImageNode.renderBoxes
       (fst (ImageNode.insert 2 (Some Samples2.box_a) (ImageNode.FromCache 8 None)
               Samples2.pic_node))
     = ImageNode.renderBoxes Samples2.pic_node
       ++ [ImageNode.mkRenderBox 2 (Some Samples2.box_a)].
Proof.
  split; [reflexivity|].
  exact (proj1 (insert_then_repaint Samples2.pic_node 2 8 Samples2.box_a None eq_refl)).
Defined.

Lemma redraw_init_strips_witness :
  RCM.layout Samples2.drawn0 = Some (RCM.mkLayoutRef (Some Samples.scroll_node))
  /\ RCM.glRects Samples2.drawn0 = [0; 1; 4]%nat
  /\ Forall (fun r => ~ In r (RCM.glRects Samples2.drawn0))
            (RCM.glRects_of (RCM.descendants Samples.scroll_node))
  /\ exists trace m',
       RCM.draw true Samples2.drawn0 = (trace, Js.Done m')
       /\ RCM.glRects m' = [0%nat].
Proof.
  assert (Forall (fun n => RCM.node_ref n <> RCM.node_ref Samples.scroll_node)
                 (RCM.descendants Samples.scroll_node)) as HR.
  { vm_compute. repeat constructor; discriminate. }
  assert (Forall (fun r => ~ In r (RCM.glRects Samples2.drawn0))
                 (RCM.glRects_of (RCM.descendants Samples.scroll_node))) as HA.
  { vm_compute. repeat constructor; intros Hin; vm_compute in Hin;
      intuition discriminate. }
  split; [reflexivity|]. split; [vm_compute; reflexivity|]. split; [exact HA|].
  destruct (redraw_init_strips Samples2.drawn0
              (RCM.mkLayoutRef (Some Samples.scroll_node)) Samples.scroll_node
              eq_refl eq_refl HR HA) as (trace & m' & Hd & _ & Hrects & _).
  exists trace, m'. split; [exact Hd|]. rewrite Hrects. vm_compute. reflexivity.
Defined.

Lemma pool_is_lifo_witness :
  RCM.scrollCanvas Samples.previous_manager = Some Samples.used_canvas
  /\ RCM.scrollCanvas Samples2.other_manager = Some Samples.main_canvas
  /\ RCM.scrollCanvas
       (fst (RCM.constructor Samples.main_canvas 1
               (snd (RCM.release Samples2.other_manager
                       (snd (RCM.release Samples.previous_manager
                               (RCM.mkGlobal [] 8 0)))))))
     = Some Samples.main_canvas.
Proof.
  split; [reflexivity|]. split; [reflexivity|].
  exact (proj1 (pool_is_lifo Samples.previous_manager Samples2.other_manager
                  (RCM.mkGlobal [] 8 0) Samples.used_canvas Samples.main_canvas
                  Samples.main_canvas 1 eq_refl eq_refl)).
Defined.

Lemma setup_after_release_witness :
  RCM.scrollCanvas (fst Samples.manager0) = Some Samples.used_canvas
  /\ RCM.layout (fst Samples.manager0)
     = Some (RCM.mkLayoutRef (Some Samples.scroll_node))
  /\ RCM.glRect Samples.scroll_node = Some 1%nat
  /\ exists m' g',
       snd (RCM.setupScrollGl
              (fst (RCM.release (fst Samples.manager0) (snd Samples.manager0)))
              (snd (RCM.release (fst Samples.manager0) (snd Samples.manager0))))
       = Js.Done (m', g')
       /\ RCM.glTexture m' !! 1%nat = Some 7%nat.
Proof.
  split; [reflexivity|]. split; [reflexivity|]. split; [reflexivity|].
  destruct (setup_after_release (fst Samples.manager0) (snd Samples.manager0)
              Samples.used_canvas (RCM.mkLayoutRef (Some Samples.scroll_node))
              Samples.scroll_node 1 eq_refl eq_refl eq_refl eq_refl)
    as (m' & g' & Hs & _ & _ & _ & _ & Htex & _).
  exists m', g'. split; [now rewrite Hs | exact Htex].
Defined.
